(** * Period-label resolution of the page [paginas/nds_realizadas.py]

    Shallow embedding of the column-role detector
    [_detect_period_columns], of the value-to-label converter
    [_format_period_from_maybe_date_or_string] with its free-text helper
    [_extract_year_month_from_string], of the option builder
    [_period_options_ordered_from_series] and of the filtering loop of
    [app]. *)

From Stdlib Require Import ZArith List String Ascii Bool Lia.
From Stdlib Require Import Sorting.Sorted Sorting.Permutation ListSet DecimalString.
Import ListNotations.
Open Scope Z_scope.

(** ** Python text

    A Python [str] is a sequence of Unicode code points; it is modelled as
    a list of [Z].  The tables for [str.lower], [str.isspace] and the NFKD
    decomposition of [unicodedata] are exact on the Latin-1 range
    (U+0000..U+00FF) that the spreadsheet's Portuguese text uses; code
    points above U+00FF are left unchanged by [py_lower] and [nfkd]. *)

Definition text := list Z.

(** ASCII literal to code points. *)
Definition u (s : string) : text :=
  map (fun a => Z.of_nat (nat_of_ascii a)) (list_ascii_of_string s).
Arguments u s%_string.

Fixpoint teqb (a b : text) : bool :=
  match a, b with
  | [], [] => true
  | x :: a', y :: b' => Z.eqb x y && teqb a' b'
  | _, _ => false
  end.

Fixpoint is_prefix (p s : text) : bool :=
  match p, s with
  | [], _ => true
  | a :: p', b :: s' => Z.eqb a b && is_prefix p' s'
  | _ :: _, [] => false
  end.

(** Python's [k in s] for strings. *)
Fixpoint contains (p s : text) : bool :=
  is_prefix p s || match s with [] => false | _ :: s' => contains p s' end.

Definition in_range (lo hi c : Z) : bool := (lo <=? c) && (c <=? hi).

Definition is_digit (c : Z) : bool := in_range 48 57 c.

(** [str.isspace] *)
Definition py_isspace (c : Z) : bool :=
  in_range 9 13 c || in_range 28 32 c || Z.eqb c 133 || Z.eqb c 160
  || Z.eqb c 5760 || in_range 8192 8202 c || Z.eqb c 8232 || Z.eqb c 8233
  || Z.eqb c 8239 || Z.eqb c 8287 || Z.eqb c 12288.

(** [str.lower] on one code point: A..Z and the Latin-1 capitals
    U+00C0..U+00DE except the multiplication sign U+00D7. *)
Definition py_lower_cp (c : Z) : Z :=
  if in_range 65 90 c || (in_range 192 222 c && negb (Z.eqb c 215))
  then c + 32 else c.

Definition py_lower (s : text) : text := map py_lower_cp s.

Fixpoint lstrip (s : text) : text :=
  match s with
  | c :: r => if py_isspace c then lstrip r else s
  | [] => []
  end.

(** [str.strip()] *)
Definition py_strip (s : text) : text := rev (lstrip (rev (lstrip s))).

(** Latin-1 letters with a canonical decomposition: (letter, base, mark),
    capitals only; the small letters are the same rows shifted by 0x20. *)
Definition latin1_letters : list (Z * Z * Z) :=
  [(0xC0,0x41,0x300); (0xC1,0x41,0x301); (0xC2,0x41,0x302); (0xC3,0x41,0x303);
   (0xC4,0x41,0x308); (0xC5,0x41,0x30A); (0xC7,0x43,0x327);
   (0xC8,0x45,0x300); (0xC9,0x45,0x301); (0xCA,0x45,0x302); (0xCB,0x45,0x308);
   (0xCC,0x49,0x300); (0xCD,0x49,0x301); (0xCE,0x49,0x302); (0xCF,0x49,0x308);
   (0xD1,0x4E,0x303);
   (0xD2,0x4F,0x300); (0xD3,0x4F,0x301); (0xD4,0x4F,0x302); (0xD5,0x4F,0x303);
   (0xD6,0x4F,0x308);
   (0xD9,0x55,0x300); (0xDA,0x55,0x301); (0xDB,0x55,0x302); (0xDC,0x55,0x308);
   (0xDD,0x59,0x301)].

(** NFKD decompositions of U+00A0..U+00FF. *)
Definition nfkd_table : list (Z * text) :=
  [(0xA0,[0x20]); (0xA8,[0x20;0x308]); (0xAA,[0x61]); (0xAF,[0x20;0x304]);
   (0xB2,[0x32]); (0xB3,[0x33]); (0xB4,[0x20;0x301]); (0xB5,[0x3BC]);
   (0xB8,[0x20;0x327]); (0xB9,[0x31]); (0xBA,[0x6F]);
   (0xBC,[0x31;0x2044;0x34]); (0xBD,[0x31;0x2044;0x32]);
   (0xBE,[0x33;0x2044;0x34])]
  ++ map (fun '(c, b, m) => (c, [b; m])) latin1_letters
  ++ map (fun '(c, b, m) => (c + 0x20, [b + 0x20; m])) latin1_letters
  ++ [(0xFF,[0x79;0x308])].

Fixpoint assoc_Z {A} (k : Z) (l : list (Z * A)) : option A :=
  match l with
  | [] => None
  | (k', v) :: l' => if Z.eqb k k' then Some v else assoc_Z k l'
  end.

Definition nfkd_cp (c : Z) : text :=
  match assoc_Z c nfkd_table with Some d => d | None => [c] end.

(** [unicodedata.normalize('NFKD', s)] *)
Definition nfkd (s : text) : text := flat_map nfkd_cp s.

(** [unicodedata.category(ch) == 'Mn'] for the combining diacritical
    marks U+0300..U+036F, the only marks NFKD produces on Latin-1. *)
Definition is_mn (c : Z) : bool := in_range 0x300 0x36F c.

Definition drop_mn (s : text) : text := filter (fun c => negb (is_mn c)) s.

Definition is_az09 (c : Z) : bool := in_range 97 122 c || is_digit c.

(** [_normalize]: NFKD, drop the marks, lowercase, keep [a-z0-9]. *)
Definition _normalize (t : text) : text :=
  filter is_az09 (py_lower (drop_mn (nfkd t))).

(** ** Column-role detector [_detect_period_columns] *)

Definition periodo_nd_acc : text := u "per" ++ [0xED] ++ u "odo nd".
Definition periodo_aloc_acc : text :=
  u "per" ++ [0xED] ++ u "odo aloca" ++ [0xE7; 0xE3] ++ u "o".
Definition periodo_fech_acc : text := u "per" ++ [0xED] ++ u "odo fechamento".

Definition _KEYWORDS_ND : list text := [u "periodo"; u "nd"].
Definition _KEYWORDS_ALOC : list text :=
  [u "periodo"; u "aloc"; u "alocacao"; u "aloca" ++ [0xE7; 0xE3] ++ u "o"].
Definition _KEYWORDS_FECH : list text := [u "periodo"; u "fech"; u "fechamento"].

(** Truth value of a Python [Optional[str]]: [None] and [""] are false. *)
Definition truthy (o : option text) : bool :=
  match o with Some (_ :: _) => true | _ => false end.

Definition roles := (option text * option text * option text)%type.

(** The first loop, over the columns in order. *)
Fixpoint first_pass (cols : list text) (st : roles) : roles :=
  match cols with
  | [] => st
  | c :: cs =>
      let '(nd_col, aloc_col, fech_col) := st in
      let n := py_lower (py_strip c) in
      let nc := _normalize c in
      let nd_col :=
        if teqb n periodo_nd_acc || teqb n (u "periodo nd")
           || (contains (u "nd") nc && contains (u "periodo") nc
               && negb (truthy nd_col))
        then Some c else nd_col in
      let aloc_col :=
        if teqb n periodo_aloc_acc || teqb n (u "periodo alocacao")
           || (contains (u "aloc") nc && contains (u "periodo") nc
               && negb (truthy aloc_col))
        then Some c else aloc_col in
      let fech_col :=
        if teqb n periodo_fech_acc || teqb n (u "periodo fechamento")
           || (contains (u "fech") nc && contains (u "periodo") nc
               && negb (truthy fech_col))
        then Some c else fech_col in
      first_pass cs (nd_col, aloc_col, fech_col)
  end.

(** [for c in cols: if p(c): x = c; break] *)
Fixpoint first_col (p : text -> bool) (cols : list text) : option text :=
  match cols with
  | [] => None
  | c :: cs => if p c then Some c else first_col p cs
  end.

Definition all_in (ks : list text) (n : text) : bool :=
  forallb (fun k => contains k n) ks.
Definition any_in (ks : list text) (n : text) : bool :=
  existsb (fun k => contains k n) ks.

Definition fallback_nd (c : text) : bool := all_in _KEYWORDS_ND (_normalize c).
Definition fallback_aloc (c : text) : bool :=
  let n := _normalize c in any_in _KEYWORDS_ALOC n && negb (contains (u "nd") n).
Definition fallback_fech (c : text) : bool :=
  let n := _normalize c in any_in _KEYWORDS_FECH n && negb (contains (u "nd") n).

(** [if not x: for c in cols: ...] keeps [x] when no column matches. *)
Definition fallback (p : text -> bool) (cols : list text) (x : option text)
  : option text :=
  if negb (truthy x) then
    match first_col p cols with Some c => Some c | None => x end
  else x.

Definition _detect_period_columns (cols : list text) : roles :=
  let '(nd_col, aloc_col, fech_col) := first_pass cols (None, None, None) in
  let nd_col := fallback fallback_nd cols nd_col in
  let aloc_col := fallback fallback_aloc cols aloc_col in
  let fech_col := fallback fallback_fech cols fech_col in
  (nd_col, aloc_col, fech_col).


(** ** Free-text extraction [_extract_year_month_from_string]

    The regular expressions run on [raw_norm], which only holds
    [a-z0-9/.\- ]; on such text [\d] and [\D] are the ASCII classes. *)

Definition digit_val (c : Z) : Z := c - 48.

(** [re.sub(r'[^a-z0-9/.\- ]', '', ...)] keeps these code points. *)
Definition keep_raw (c : Z) : bool :=
  in_range 97 122 c || is_digit c || Z.eqb c 47 || Z.eqb c 46
  || Z.eqb c 45 || Z.eqb c 32.

(** [int(re.search(r'(20\d{2})', s).group(1))], leftmost match. *)
Fixpoint search_year4 (s : text) : option Z :=
  match s with
  | a :: ((b :: c :: d :: _) as r) =>
      if Z.eqb a 50 && Z.eqb b 48 && is_digit c && is_digit d
      then Some (2000 + 10 * digit_val c + digit_val d)
      else search_year4 r
  | _ => None
  end.

(** [int(re.search(r'(\d{2})$', s).group(1))]; [$] also matches before a
    final newline. *)
Definition search_trailing2 (s : text) : option Z :=
  let two hi lo :=
    if is_digit hi && is_digit lo then Some (10 * digit_val hi + digit_val lo)
    else None in
  match rev s with
  | x :: lo :: hi :: _ => if Z.eqb x 10 then two hi lo else two lo x
  | [lo; hi] => two hi lo
  | _ => None
  end.

Definition keywords_map : list (Z * list text) :=
  [(1, [u "jan"; u "janeiro"]);
   (2, [u "fev"; u "fevereiro"]);
   (3, [u "mar"; u "mar" ++ [0xE7] ++ u "o"; u "marco"]);
   (4, [u "abr"; u "abril"]);
   (5, [u "mai"; u "maio"]);
   (6, [u "jun"; u "junho"]);
   (7, [u "jul"; u "julho"]);
   (8, [u "ago"; u "agost"; u "agosto"]);
   (9, [u "set"; u "setem"; u "setembro"; u "sep"; u "conj"; u "conjun";
        u "conjunto"]);
   (10, [u "out"; u "outub"; u "outubro"]);
   (11, [u "nov"; u "novembro"]);
   (12, [u "dez"; u "dezembro"])].

(** The two nested loops over [keywords_map.items()] with their [break]s. *)
Fixpoint month_by_keyword (km : list (Z * list text)) (s : text) : option Z :=
  match km with
  | [] => None
  | (mnum, kws) :: km' =>
      if existsb (fun kw => contains kw s) kws then Some mnum
      else month_by_keyword km' s
  end.

(** [(?:\D|$)] at the start of the rest [r]. *)
Definition end_ok (r : text) : bool :=
  match r with [] => true | c :: _ => negb (is_digit c) end.

(** The group [(0?[1-9]|1[0-2])] followed by [(?:\D|$)], tried at the start
    of [r] with the regex engine's backtracking order: [0?] greedy first,
    then without the [0], then the alternative [1[0-2]]. *)
Definition month_group (r : text) : option Z :=
  match r with
  | [] => None
  | a :: r1 =>
      let with_zero :=
        if Z.eqb a 48 then
          match r1 with
          | b :: r2 => if in_range 49 57 b && end_ok r2 then Some (digit_val b) else None
          | [] => None
          end
        else None in
      match with_zero with
      | Some v => Some v
      | None =>
          if in_range 49 57 a && end_ok r1 then Some (digit_val a)
          else if Z.eqb a 49 then
            match r1 with
            | b :: r2 =>
                if in_range 48 50 b && end_ok r2 then Some (10 + digit_val b)
                else None
            | [] => None
            end
          else None
      end
  end.

(** Start positions after the first: only the [\D] branch can match. *)
Fixpoint month_search_from (r : text) : option Z :=
  match r with
  | [] => None
  | c :: r' =>
      match (if negb (is_digit c) then month_group r' else None) with
      | Some v => Some v
      | None => month_search_from r'
      end
  end.

(** [re.search(r'(?:(?:^|\D)(0?[1-9]|1[0-2])(?:\D|$))', s)]: at position 0
    the [^] branch is tried before the [\D] branch. *)
Definition search_month_num (s : text) : option Z :=
  match month_group s with
  | Some v => Some v
  | None => month_search_from s
  end.

Definition _extract_year_month_from_string (s : text) : option Z * option Z :=
  let raw := py_lower (py_strip s) in
  match raw with
  | [] => (None, None)
  | _ :: _ =>
      let raw_norm := filter keep_raw (drop_mn (nfkd raw)) in
      let year :=
        match search_year4 raw_norm with
        | Some y => Some y
        | None =>
            match search_trailing2 raw_norm with
            | Some d => Some (2000 + d)
            | None => None
            end
        end in
      let month :=
        match month_by_keyword keywords_map raw_norm with
        | Some m => Some m
        | None => search_month_num raw_norm
        end in
      (year, month)
  end.

(** ** Cell values and the converter [_format_period_from_maybe_date_or_string] *)

(** A spreadsheet cell: a date ([datetime.date] or [Timestamp]), a string,
    an integer, Python's [None] or a float [nan]. *)
Inductive value :=
| VDate (y m d : Z)
| VStr (s : text)
| VNum (n : Z)
| VNone
| VNaN.

(** A Python [date] holds a calendar date. *)
Definition wf_value (v : value) : Prop :=
  match v with
  | VDate y m d => 1 <= y <= 9999 /\ 1 <= m <= 12 /\ 1 <= d <= 31
  | _ => True
  end.

(** [str(n)] for an [int]. *)
Definition py_str_Z (n : Z) : text := u (NilEmpty.string_of_int (Z.to_int n)).

Definition zpad (k : nat) (t : text) : text := List.repeat 48 (k - List.length t) ++ t.

(** [str(v)] *)
Definition py_str (v : value) : text :=
  match v with
  | VDate y m d =>
      zpad 4 (py_str_Z y) ++ [45] ++ zpad 2 (py_str_Z m) ++ [45] ++ zpad 2 (py_str_Z d)
  | VStr s => s
  | VNum n => py_str_Z n
  | VNone => u "None"
  | VNaN => u "nan"
  end.

(** [pd.notna(v)] *)
Definition py_notna (v : value) : bool :=
  match v with VNone | VNaN => false | _ => true end.

(** Truth value of an [Optional[int]]. *)
Definition truthy_int (o : option Z) : bool :=
  match o with Some n => negb (Z.eqb n 0) | None => false end.

Definition _MESES_PT : list (Z * text) :=
  [(1, u "Jan"); (2, u "Fev"); (3, u "Mar"); (4, u "Abr"); (5, u "Mai");
   (6, u "Jun"); (7, u "Jul"); (8, u "Ago"); (9, u "Set"); (10, u "Out");
   (11, u "Nov"); (12, u "Dez")].

(** [_MESES_PT.get(m, str(m))] *)
Definition meses_get (m : Z) : text :=
  match assoc_Z m _MESES_PT with Some a => a | None => py_str_Z m end.

(** [t[-2:]] *)
Definition last2 (t : text) : text := skipn (List.length t - 2) t.

(** [f"{_MESES_PT.get(m, str(m))}/{str(y)[-2:]}"] *)
Definition fmt_label (y m : Z) : text := meses_get m ++ [47] ++ last2 (py_str_Z y).

(** Bounds of a pandas [Timestamp]: 1677-09-21 (exclusive, the bound falls
    after midnight) to 2262-04-11. *)
Definition ts_in_bounds (y m d : Z) : bool :=
  let k := (y * 100 + m) * 100 + d in (16770921 <? k) && (k <=? 22620411).

(** [if year and month:] on the pair returned by the extractor. *)
Definition year_month_ok (p : option Z * option Z) : option (Z * Z) :=
  match p with
  | (Some y, Some m) =>
      if truthy_int (Some y) && truthy_int (Some m) then Some (y, m) else None
  | _ => None
  end.

Section Converter.

(** [pd.to_datetime(val, errors='coerce')] on strings and numbers: the
    (year, month) of the parsed [Timestamp], or [None] for [NaT] and for an
    exception caught by the [try]. *)
Variable parse_str : text -> option (Z * Z).
Variable parse_num : Z -> option (Z * Z).

Definition to_datetime (v : value) : option (Z * Z) :=
  match v with
  | VDate y m d => if ts_in_bounds y m d then Some (y, m) else None
  | VStr s => parse_str s
  | VNum n => parse_num n
  | VNone | VNaN => None
  end.

Definition _format_period_from_maybe_date_or_string (v : value) : option text :=
  match to_datetime v with
  | Some (y, m) => Some (fmt_label y m)
  | None =>
      match v with
      | VStr s =>
          match year_month_ok (_extract_year_month_from_string s) with
          | Some (y, m) => Some (fmt_label y m)
          | None => None
          end
      | _ => None
      end
  end.

(** ** Option builder [_period_options_ordered_from_series]

    The series is iterated with [series.iat[i]] for the index label [i]:
    the page builds it from the sheet as loaded, with its default
    [RangeIndex], so the value at label [i] is the [i]-th one. *)

(** [lbl.split("/")] *)
Fixpoint split_on (sep : Z) (t : text) : list text :=
  match t with
  | [] => [[]]
  | c :: r =>
      if Z.eqb c sep then [] :: split_on sep r
      else match split_on sep r with
           | p :: ps => (c :: p) :: ps
           | [] => [[c]]
           end
  end.

(** [for k, v in _MESES_PT.items(): if v.lower() == m_part.lower(): ...] *)
Fixpoint month_of_abbrev (l : list (Z * text)) (m_part : text) : option Z :=
  match l with
  | [] => None
  | (k, v) :: l' =>
      if teqb (py_lower v) (py_lower m_part) then Some k else month_of_abbrev l' m_part
  end.

Fixpoint digits_value (t : text) (acc : Z) : option Z :=
  match t with
  | [] => Some acc
  | c :: r => if is_digit c then digits_value r (10 * acc + digit_val c) else None
  end.

(** [int(t)] on a [str] (surrounding blanks, an optional sign, ASCII
    digits); [None] stands for the [ValueError]. *)
Definition py_int (t : text) : option Z :=
  match py_strip t with
  | [] => None
  | c :: r =>
      if Z.eqb c 45 then
        match r with [] => None | _ => option_map Z.opp (digits_value r 0) end
      else if Z.eqb c 43 then
        match r with [] => None | _ => digits_value r 0 end
      else digits_value (c :: r) 0
  end.

Definition text_eq_dec : forall a b : text, {a = b} + {a <> b} :=
  list_eq_dec Z.eq_dec.

Definition triple := (Z * Z * text)%type.

Definition triple_eq_dec : forall a b : triple, {a = b} + {a <> b}.
Proof. decide equality; [apply text_eq_dec | decide equality; apply Z.eq_dec]. Defined.

Definition options_state := (list triple * set text)%type.

(** One iteration of [for i, lbl in labels.items()]; [None] is the
    [ValueError] of the unpacking [m_part, y_part = lbl.split("/")]. *)
Definition options_step (st : options_state) (v : value) : option options_state :=
  let '(tuples, others) := st in
  match _format_period_from_maybe_date_or_string v with
  | None =>
      match year_month_ok (_extract_year_month_from_string (py_str v)) with
      | Some (y, m) => Some (tuples ++ [(y, m, fmt_label y m)], others)
      | None =>
          Some (tuples,
                if py_notna v then set_add text_eq_dec (py_str v) others else others)
      end
  | Some lbl =>
      match split_on 47 lbl with
      | [m_part; y_part] =>
          let month_num := month_of_abbrev _MESES_PT m_part in
          let year_num :=
            if Nat.eqb (List.length y_part) 2
            then option_map (Z.add 2000) (py_int y_part)
            else py_int y_part in
          match year_num, month_num with
          | Some yn, Some mn =>
              if truthy_int year_num && truthy_int month_num
              then Some (tuples ++ [(yn, mn, lbl)], others)
              else Some (tuples, set_add text_eq_dec lbl others)
          | _, _ => Some (tuples, set_add text_eq_dec lbl others)
          end
      | _ => None
      end
  end.

Fixpoint options_loop (vs : list value) (st : options_state) : option options_state :=
  match vs with
  | [] => Some st
  | v :: vs' =>
      match options_step st v with
      | Some st' => options_loop vs' st'
      | None => None
      end
  end.

End Converter.

(** Insertion sort; stable, like Python's [sorted]. *)
Fixpoint insert {A} (le : A -> A -> bool) (x : A) (l : list A) : list A :=
  match l with
  | [] => [x]
  | y :: l' => if le x y then x :: y :: l' else y :: insert le x l'
  end.

Definition isort {A} (le : A -> A -> bool) (l : list A) : list A :=
  fold_right (insert le) [] l.

(** [key=lambda t: (t[0], t[1])] *)
Definition key_leb (a b : triple) : bool :=
  let '(y1, m1, _) := a in
  let '(y2, m2, _) := b in
  (y1 <? y2) || ((y1 =? y2) && (m1 <=? m2)).

(** Python's ordering of [str]: code point by code point. *)
Fixpoint text_leb (a b : text) : bool :=
  match a, b with
  | [], _ => true
  | _ :: _, [] => false
  | x :: a', y :: b' => (x <? y) || ((x =? y) && text_leb a' b')
  end.

Definition third (t : triple) : text := let '(_, _, l) := t in l.

(** The set [unique] is listed by [nodup]; Python iterates a set in an
    order of its own, which [sorted] then fixes. *)
Definition _period_options_ordered_from_series
  (parse_str : text -> option (Z * Z)) (parse_num : Z -> option (Z * Z))
  (vs : list value) : option (list text) :=
  match options_loop parse_str parse_num vs ([], []) with
  | None => None
  | Some (tuples, others) =>
      let unique := nodup triple_eq_dec tuples in
      let ordered := isort key_leb unique in
      let result := map third ordered in
      Some (result ++ isort text_leb others)
  end.

(** ** Filtering in [app]

    A row maps every column of the frame to its cell; a [_fmt] column holds
    the converter's result, a [str] or [None]. *)

Definition row := text -> value.

Definition fmt_cell (o : option text) : value :=
  match o with Some l => VStr l | None => VNone end.

(** [df[fmt_key] = _format_period_series(df[src])] on one row. *)
Definition add_fmt_column (parse_str : text -> option (Z * Z))
  (parse_num : Z -> option (Z * Z)) (fmt_key src : text) (r : row) : row :=
  fun c => if teqb c fmt_key
           then fmt_cell (_format_period_from_maybe_date_or_string parse_str parse_num (r src))
           else r c.

(** [df[col].astype(str).isin(valores)] on one row (pandas 2: [None]
    becomes ["None"]). *)
Definition isin (v : value) (valores : list text) : bool :=
  existsb (teqb (py_str v)) valores.

(** [for col_key, valores in filtros_selected.items(): ...]; both branches
    of the [endswith("_fmt")] test filter the same way. *)
Fixpoint aplica_filtros (filtros : list (text * list text)) (df : list row) : list row :=
  match filtros with
  | [] => df
  | (col_key, valores) :: fs =>
      let df := match valores with
                | [] => df
                | _ :: _ => filter (fun r => isin (r col_key) valores) df
                end in
      aplica_filtros fs df
  end.

(** ** Vocabulary of the statements *)

(** The conditions of the first loop of [_detect_period_columns]. *)
Definition exact_nd (c : text) : bool :=
  let n := py_lower (py_strip c) in teqb n periodo_nd_acc || teqb n (u "periodo nd").
Definition exact_aloc (c : text) : bool :=
  let n := py_lower (py_strip c) in
  teqb n periodo_aloc_acc || teqb n (u "periodo alocacao").
Definition exact_fech (c : text) : bool :=
  let n := py_lower (py_strip c) in
  teqb n periodo_fech_acc || teqb n (u "periodo fechamento").
Definition keyword_nd (c : text) : bool :=
  let nc := _normalize c in contains (u "nd") nc && contains (u "periodo") nc.
Definition keyword_aloc (c : text) : bool :=
  let nc := _normalize c in contains (u "aloc") nc && contains (u "periodo") nc.
Definition keyword_fech (c : text) : bool :=
  let nc := _normalize c in contains (u "fech") nc && contains (u "periodo") nc.

(** The last column satisfying [p]. *)
Fixpoint last_col (p : text -> bool) (cols : list text) : option text :=
  match cols with
  | [] => None
  | c :: cs =>
      match last_col p cs with
      | Some c' => Some c'
      | None => if p c then Some c else None
      end
  end.

(** Who gets a role: the last exactly named column, else the first column
    passing the first loop's keyword test, else the first column passing
    the fallback test. *)
Definition role_choice (ex kw fb : text -> bool) (cols : list text) : option text :=
  match last_col ex cols with
  | Some c => Some c
  | None =>
      match first_col kw cols with
      | Some c => Some c
      | None => first_col fb cols
      end
  end.

(** One column of the first loop, for one role. *)
Definition role_step (ex kw : text -> bool) (acc : option text) (c : text) : option text :=
  if ex c || (kw c && negb (truthy acc)) then Some c else acc.

(** A tuple of the option builder whose label is the one of its key. *)
Definition canon (t : triple) : Prop :=
  exists y m, t = (y, m, fmt_label y m) /\ 2000 <= y <= 2099 /\ 1 <= m <= 12.

(** The state of the option loop after the values [seen]: the tuples are
    canonical, [others] has no duplicates and holds the [str] of cells the
    converter and the extractor both failed on; every label of a value of
    [seen] is in a tuple, and every unresolved non-null value of [seen] is
    in [others]. *)
Definition options_inv (parse_str : text -> option (Z * Z))
  (parse_num : Z -> option (Z * Z)) (seen : list value) (st : options_state) : Prop :=
  let '(tuples, others) := st in
  Forall canon tuples /\ NoDup others /\
  Forall (fun x => year_month_ok (_extract_year_month_from_string x) = None /\
                   exists v, In v seen
                     /\ _format_period_from_maybe_date_or_string parse_str parse_num v = None
                     /\ py_notna v = true /\ py_str v = x) others /\
  Forall (fun v =>
            (forall l, _format_period_from_maybe_date_or_string parse_str parse_num v = Some l ->
                       exists t, In t tuples /\ third t = l) /\
            (_format_period_from_maybe_date_or_string parse_str parse_num v = None ->
             py_notna v = true ->
             year_month_ok (_extract_year_month_from_string (py_str v)) = None ->
             In (py_str v) others)) seen.

(** A period label: an abbreviation of [_MESES_PT], a slash, two digits. *)
Definition is_period_label (l : text) : Prop :=
  exists m a yy, assoc_Z m _MESES_PT = Some a /\ List.length yy = 2%nat
                 /\ forallb is_digit yy = true /\ l = a ++ [47] ++ yy.

(** The label of the spec: "<Abbrev[month]>/<two-digit year>" with the
    table Jan..Dez. *)
Definition spec_abbrev : list text :=
  [u "Jan"; u "Fev"; u "Mar"; u "Abr"; u "Mai"; u "Jun"; u "Jul"; u "Ago";
   u "Set"; u "Out"; u "Nov"; u "Dez"].
Definition spec_label (y m : Z) : text :=
  nth (Z.to_nat (m - 1)) spec_abbrev [] ++ u "/"
  ++ [48 + (y mod 100) / 10; 48 + y mod 10].

Definition key (t : triple) : Z * Z := let '(y, m, _) := t in (y, m).

Definition key_lt (a b : Z * Z) : Prop :=
  fst a < fst b \/ (fst a = fst b /\ snd a < snd b).

Definition label_of (k : Z * Z) : text := fmt_label (fst k) (snd k).

(** A parser standing for [pd.to_datetime] in the examples: it reads
    "YYYY-MM" and "YYYY-MM-DD" inside the [Timestamp] range, nothing else. *)
Definition iso_parse (s : text) : option (Z * Z) :=
  match s with
  | a :: b :: c :: d :: h :: e :: f :: rest =>
      if Z.eqb h 45
         && match rest with [] => true | [h2; _; _] => Z.eqb h2 45 | _ => false end
      then
        match digits_value [a; b; c; d] 0, digits_value [e; f] 0 with
        | Some y, Some m =>
            if in_range 1678 2261 y && in_range 1 12 m then Some (y, m) else None
        | _, _ => None
        end
      else None
  | _ => None
  end.

Definition no_num (n : Z) : option (Z * Z) := None.

(** ** The rest of [app]: metrics and the display table *)

(** [str.replace(old, new)] for a one-character [old]. *)
Definition py_replace1 (old : Z) (new : text) (s : text) : text :=
  flat_map (fun c => if Z.eqb c old then new else [c]) s.

(** [str.endswith(suf)] *)
Definition ends_with (suf s : text) : bool := is_prefix (rev suf) (rev s).

(** Python's [format(n, ",")] for an [int]: the digits of [abs(n)] in groups
    of three from the right, separated by commas, after a minus sign when
    [n < 0]; [group3] works on the digits read from the right. *)
Fixpoint group3 (ds : text) : text :=
  match ds with
  | a :: b :: c :: ((_ :: _) as r) => a :: b :: c :: 44 :: group3 r
  | _ => ds
  end.

Definition py_format_thousands (n : Z) : text :=
  (if n <? 0 then [45] else []) ++ rev (group3 (rev (py_str_Z (Z.abs n)))).

(** [f"{total_horas:,}".replace(",", ".")] *)
Definition horas_metric (total_horas : Z) : text :=
  py_replace1 44 [46] (py_format_thousands total_horas).

(** [.replace(",", "v").replace(".", ",").replace("v", ".")] applied to the
    text [f"R$ {x:,.2f}"] (the metric and the column "Total R$"). *)
Definition brl_swap (s : text) : text :=
  py_replace1 118 [46] (py_replace1 46 [44] (py_replace1 44 [118] s)).

(** A frame: its column names in order, and its rows. *)
Record frame := mkframe { fcols : list text; frows : list row }.

(** [c in cols] *)
Definition has_col (c : text) (cols : list text) : bool := existsb (teqb c) cols.

Definition upd (r : row) (c : text) (v : value) : row :=
  fun k => if teqb k c then v else r k.

(** [df[c] = ...]: an existing column is replaced in place, a new one is
    appended. *)
Definition set_column (c : text) (g : row -> value) (df : frame) : frame :=
  mkframe (if has_col c (fcols df) then fcols df else fcols df ++ [c])
          (map (fun r => upd r c (g r)) (frows df)).

(** [df.drop(columns=ds)] *)
Definition drop_columns (ds : list text) (df : frame) : frame :=
  mkframe (filter (fun c => negb (has_col c ds)) (fcols df)) (frows df).

(** [cols.remove(p)], only called when [p in cols]. *)
Fixpoint remove_first (p : text) (l : list text) : list text :=
  match l with
  | [] => []
  | c :: l' => if teqb c p then l' else c :: remove_first p l'
  end.

Definition periodo_cap : text := u "Per" ++ [0xED] ++ u "odo".
Definition col_nd : text := periodo_cap ++ u " ND".
Definition col_fech : text := periodo_cap ++ u " Fechamento".
Definition col_nd_fmt : text := col_nd ++ u "_fmt".
Definition col_aloc_fmt : text := periodo_cap ++ u " Aloc_fmt".
Definition col_fech_fmt : text := col_fech ++ u "_fmt".

Definition colunas_ocultas : list text :=
  [u "Empresa"; u "Conta Destino"; u "Aprovador"].

(** The columns of [filtros_config], in order. *)
Definition filtros_keys : list text :=
  [col_nd_fmt; col_fech_fmt; [0xC1] ++ u "rea"; u "Analista"; u "Projeto";
   u "Conta Cont" ++ [0xE1] ++ u "bil"; u "Status Portal"; u "ND"].

(** [for p in ["Período ND", "Período Fechamento"]: if p in cols: ...] *)
Definition preferir (cols : list text) : list text * list text :=
  fold_left (fun (acc : list text * list text) p =>
               let '(preferred, cols) := acc in
               if has_col p cols then (preferred ++ [p], remove_first p cols)
               else (preferred, cols))
            [col_nd; col_fech] ([], cols).

Section Page.

Variable parse_str : text -> option (Z * Z).
Variable parse_num : Z -> option (Z * Z).
(** [pd.to_numeric(..., errors="coerce")] on one cell. *)
Variable to_numeric : value -> value.

(** [_format_period_series(df[src])] on one row. *)
Definition fmt_series (src : text) (r : row) : value :=
  fmt_cell (_format_period_from_maybe_date_or_string parse_str parse_num (r src)).

Definition name_of (o : option text) : text := match o with Some c => c | None => [] end.

(** [if col: df[fmt_key] = _format_period_series(df[col])] *)
Definition add_fmt (o : option text) (fmt_key : text) (df : frame) : frame :=
  if truthy o then set_column fmt_key (fmt_series (name_of o)) df else df.

(** [df["Horas"] = pd.to_numeric(df["Horas"])] or [df["Horas"] = 0]. *)
Definition numeric_column (c : text) (df : frame) : frame :=
  set_column c (if has_col c (fcols df) then fun r => to_numeric (r c) else fun _ => VNum 0) df.

(** [df_filtrado] of [app], from the frame after its first column was
    (or not) dropped, the detected roles and the multiselect values [sel]. *)
Definition df_filtrado (rl : roles) (sel : text -> list text) (df : frame) : frame :=
  let '(nd, aloc, fech) := rl in
  let df := add_fmt nd col_nd_fmt df in
  let df := add_fmt aloc col_aloc_fmt df in
  let df := add_fmt fech col_fech_fmt df in
  let filtros := map (fun k => (k, sel k)) (filter (fun k => has_col k (fcols df)) filtros_keys) in
  let df := mkframe (fcols df) (aplica_filtros filtros (frows df)) in
  numeric_column (u "Valor") (numeric_column (u "Horas") df).

(** [df_visual] of [app], from [df_filtrado]. *)
Definition df_visual (rl : roles) (dff : frame) : frame :=
  let '(nd, aloc, fech) := rl in
  let dv := drop_columns (filter (fun c => has_col c (fcols dff)) colunas_ocultas) dff in
  let dv :=
    if has_col col_nd_fmt (fcols dv) then set_column col_nd (fun r => r col_nd_fmt) dv
    else if truthy nd && has_col (name_of nd) (fcols dv)
    then set_column col_nd (fmt_series (name_of nd)) dv
    else dv in
  let dv :=
    if has_col col_fech_fmt (fcols dv) then set_column col_fech (fun r => r col_fech_fmt) dv
    else if has_col col_aloc_fmt (fcols dv) then set_column col_fech (fun r => r col_aloc_fmt) dv
    else if truthy fech && has_col (name_of fech) (fcols dv)
    then set_column col_fech (fmt_series (name_of fech)) dv
    else if truthy aloc && has_col (name_of aloc) (fcols dv)
    then set_column col_fech (fmt_series (name_of aloc)) dv
    else dv in
  let fmt_cols := filter (ends_with (u "_fmt")) (fcols dv) in
  let dv := drop_columns (filter (fun c => has_col c (fcols dv)) fmt_cols) dv in
  let '(preferred, cols) := preferir (fcols dv) in
  mkframe (preferred ++ cols) (frows dv).

(** The table shown and exported by [app]. *)
Definition app_visual (sel : text -> list text) (df : frame) : frame :=
  let rl := _detect_period_columns (fcols df) in
  df_visual rl (df_filtrado rl sel df).

End Page.

(** Text held in Latin-1 (U+0000..U+00FF). *)
Definition latin1 (s : text) : bool := forallb (in_range 0 255) s.

(** The Portuguese month names, in full. *)
Definition nomes_meses : list text :=
  [u "janeiro"; u "fevereiro"; u "mar" ++ [0xE7] ++ u "o"; u "abril"; u "maio";
   u "junho"; u "julho"; u "agosto"; u "setembro"; u "outubro"; u "novembro";
   u "dezembro"].

(** [str(n).zfill(2)] for [0 <= n <= 99]. *)
Definition two_digits (n : Z) : text := zpad 2 (py_str_Z n).

(** * Proofs *)

(** Checking a boolean property on an interval of integers. *)
Definition Z_interval (lo n : Z) : list Z :=
  map (fun i => lo + Z.of_nat i) (seq 0 (Z.to_nat n)).

Definition oz_eqb (a b : option Z) : bool :=
  match a, b with
  | Some x, Some y => Z.eqb x y
  | None, None => true
  | _, _ => false
  end.


(** The day-first date [dd/mm/yyyy] is read as the year and the month the
    code picks for it. *)
Definition dmy_check (y d m : Z) : bool :=
  let r := _extract_year_month_from_string
             (two_digits d ++ u "/" ++ two_digits m ++ u "/" ++ py_str_Z y) in
  oz_eqb (fst r) (Some y) && oz_eqb (snd r) (Some (if d <=? 12 then d else m)).

(** [df'] extends [df] by at most the column [c]. *)
Definition grows (c : text) (df df' : frame) : Prop :=
  (forall x, In x (fcols df) -> In x (fcols df')) /\
  (forall x, In x (fcols df') -> In x (fcols df) \/ x = c) /\
  (NoDup (fcols df) -> NoDup (fcols df')).


Lemma Z_interval_forall (P : Z -> bool) lo n :
  forallb P (Z_interval lo n) = true -> forall y, lo <= y < lo + n -> P y = true.
Proof.
  unfold Z_interval. intros H y Hy. rewrite forallb_forall in H. apply H.
  apply in_map_iff. exists (Z.to_nat (y - lo)). split.
  - rewrite Z2Nat.id; lia.
  - apply in_seq. lia.
Qed.

Lemma Some_inj {A} (x y : A) : Some x = Some y -> x = y.
Proof. congruence. Qed.

Ltac bool_facts :=
  repeat match goal with
  | H : (_ && _)%bool = true |- _ => apply andb_prop in H; destruct H
  | H : (_ || _)%bool = false |- _ => apply orb_false_elim in H; destruct H
  | H : (_ <=? _) = true |- _ => apply Z.leb_le in H
  | H : (_ <? _) = true |- _ => apply Z.ltb_lt in H
  | H : (_ =? _) = true |- _ => apply Z.eqb_eq in H
  | H : in_range _ _ _ = true |- _ => unfold in_range in H
  | H : is_digit _ = true |- _ => unfold is_digit in H
  end.

Lemma search_year4_cons a b c d t :
  search_year4 (a :: b :: c :: d :: t) =
  if Z.eqb a 50 && Z.eqb b 48 && is_digit c && is_digit d
  then Some (2000 + 10 * digit_val c + digit_val d)
  else search_year4 (b :: c :: d :: t).
Proof. reflexivity. Qed.

Lemma search_year4_range s y : search_year4 s = Some y -> 2000 <= y <= 2099.
Proof.
  induction s as [|a s IH]; intro H; [discriminate|].
  destruct s as [|b [|c [|d t]]]; try discriminate.
  rewrite search_year4_cons in H.
  destruct (Z.eqb a 50 && Z.eqb b 48 && is_digit c && is_digit d) eqn:E.
  - apply Some_inj in H; subst. bool_facts. unfold digit_val. lia.
  - exact (IH H).
Qed.

Lemma search_trailing2_range s d : search_trailing2 s = Some d -> 0 <= d <= 99.
Proof.
  unfold search_trailing2. intro H.
  destruct (rev s) as [|x [|lo [|hi t]]]; cbv beta zeta iota in H; try discriminate;
    repeat (match type of H with context [if ?b then _ else _] =>
              destruct b eqn:?; try discriminate end);
    apply Some_inj in H; subst; bool_facts; unfold digit_val; lia.
Qed.

Lemma month_by_keyword_in km s m :
  month_by_keyword km s = Some m -> In m (map fst km).
Proof.
  induction km as [|[k kws] km IH]; simpl; [discriminate|].
  destruct (existsb _ kws); [intro H; apply Some_inj in H; subst; auto | auto].
Qed.

Lemma month_group_range r m : month_group r = Some m -> 1 <= m <= 12.
Proof.
  unfold month_group. destruct r as [|a r1]; [discriminate|].
  destruct (Z.eqb a 48) eqn:E0.
  - destruct r1 as [|b r2].
    + destruct (in_range 49 57 a && end_ok []) eqn:E1.
      * intro H; apply Some_inj in H; subst; bool_facts; unfold digit_val; lia.
      * destruct (Z.eqb a 49); discriminate.
    + destruct (in_range 49 57 b && end_ok r2) eqn:E1.
      * intro H; apply Some_inj in H; subst; bool_facts; unfold digit_val; lia.
      * destruct (in_range 49 57 a && end_ok (b :: r2)) eqn:E2.
        -- intro H; apply Some_inj in H; subst; bool_facts; unfold digit_val; lia.
        -- destruct (Z.eqb a 49); [|discriminate].
           destruct (in_range 48 50 b && end_ok r2) eqn:E3; [|discriminate].
           intro H; apply Some_inj in H; subst; bool_facts; unfold digit_val; lia.
  - destruct (in_range 49 57 a && end_ok r1) eqn:E1.
    + intro H; apply Some_inj in H; subst; bool_facts; unfold digit_val; lia.
    + destruct (Z.eqb a 49); [|discriminate].
      destruct r1 as [|b r2]; [discriminate|].
      destruct (in_range 48 50 b && end_ok r2) eqn:E3; [|discriminate].
      intro H; apply Some_inj in H; subst; bool_facts; unfold digit_val; lia.
Qed.

Lemma search_month_num_range s m : search_month_num s = Some m -> 1 <= m <= 12.
Proof.
  unfold search_month_num.
  destruct (month_group s) eqn:E; [intro H; apply Some_inj in H; subst; eauto using month_group_range|].
  clear E. induction s as [|c s IH]; simpl; [discriminate|].
  destruct (negb (is_digit c)); [destruct (month_group s) eqn:E|];
    [intro H; apply Some_inj in H; subst; eauto using month_group_range | exact IH | exact IH].
Qed.

Lemma extract_month_range s m :
  snd (_extract_year_month_from_string s) = Some m -> 1 <= m <= 12.
Proof.
  unfold _extract_year_month_from_string. intro H.
  destruct (py_lower (py_strip s)) as [|c r]; [discriminate|].
  cbv zeta in H. cbn [snd] in H.
  match type of H with context [month_by_keyword keywords_map ?x] =>
    destruct (month_by_keyword keywords_map x) eqn:E end.
  - apply Some_inj in H; subst. apply month_by_keyword_in in E.
    simpl in E. lia.
  - exact (search_month_num_range _ _ H).
Qed.

Lemma extract_year_range s :
  match fst (_extract_year_month_from_string s) with
  | Some y => 2000 <= y <= 2099
  | None => True
  end.
Proof.
  unfold _extract_year_month_from_string.
  destruct (py_lower (py_strip s)) as [|c r]; [exact I|].
  cbv zeta. cbn [fst].
  match goal with |- context [search_year4 ?x] =>
    destruct (search_year4 x) eqn:E; [exact (search_year4_range _ _ E)|];
    destruct (search_trailing2 x) eqn:E2; [|exact I] end.
  apply search_trailing2_range in E2. lia.
Qed.

Lemma teqb_true a b : teqb a b = true -> a = b.
Proof.
  revert b; induction a as [|x a IH]; intros [|y b]; simpl; try discriminate; auto.
  intro H. apply andb_prop in H as [H1 H2]. apply Z.eqb_eq in H1. subst.
  f_equal. auto.
Qed.

Lemma oz_eqb_true a b : oz_eqb a b = true -> a = b.
Proof.
  destruct a, b; simpl; try discriminate; auto.
  intro H. apply Z.eqb_eq in H. congruence.
Qed.

Lemma brute (P : Z -> Z -> bool) :
  forallb (fun y => forallb (P y) (Z_interval 1 12)) (Z_interval 1677 586) = true ->
  forall y m, 1677 <= y <= 2262 -> 1 <= m <= 12 -> P y m = true.
Proof.
  intros H y m Hy Hm.
  exact (Z_interval_forall _ _ _ (Z_interval_forall _ _ _ H y ltac:(lia)) m ltac:(lia)).
Qed.

Ltac brute_force P y m := exact (brute P ltac:(vm_compute; reflexivity) y m).

Lemma fmt_label_digits y m :
  1677 <= y <= 2262 -> 1 <= m <= 12 ->
  List.length (last2 (py_str_Z y)) = 2%nat /\ forallb is_digit (last2 (py_str_Z y)) = true.
Proof.
  intros Hy Hm.
  assert (H : (Nat.eqb (List.length (last2 (py_str_Z y))) 2
               && forallb is_digit (last2 (py_str_Z y))) = true).
  { revert Hy Hm. brute_force (fun y (_ : Z) => Nat.eqb (List.length (last2 (py_str_Z y))) 2
               && forallb is_digit (last2 (py_str_Z y))) y m. }
  apply andb_prop in H as [H1 H2]. split; [apply Nat.eqb_eq|]; assumption.
Qed.

Lemma fmt_label_extract y m :
  1677 <= y <= 2262 -> 1 <= m <= 12 ->
  _extract_year_month_from_string (fmt_label y m) = (Some (2000 + y mod 100), Some m).
Proof.
  intros Hy Hm.
  assert (H : (let '(a, b) := _extract_year_month_from_string (fmt_label y m) in
               oz_eqb a (Some (2000 + y mod 100)) && oz_eqb b (Some m)) = true).
  { revert Hy Hm. brute_force (fun y m =>
      let '(a, b) := _extract_year_month_from_string (fmt_label y m) in
      oz_eqb a (Some (2000 + y mod 100)) && oz_eqb b (Some m)) y m. }
  destruct (_extract_year_month_from_string (fmt_label y m)) as [a b].
  apply andb_prop in H as [Ha Hb].
  apply oz_eqb_true in Ha, Hb. congruence.
Qed.

Lemma fmt_label_split y m :
  1677 <= y <= 2262 -> 1 <= m <= 12 ->
  split_on 47 (fmt_label y m) = [meses_get m; last2 (py_str_Z y)].
Proof.
  intros Hy Hm.
  assert (H : match split_on 47 (fmt_label y m) with
              | [p; q] => teqb p (meses_get m) && teqb q (last2 (py_str_Z y))
              | _ => false
              end = true).
  { revert Hy Hm. brute_force (fun y m =>
      match split_on 47 (fmt_label y m) with
      | [p; q] => teqb p (meses_get m) && teqb q (last2 (py_str_Z y))
      | _ => false
      end) y m. }
  destruct (split_on 47 (fmt_label y m)) as [|p [|q [|r t]]]; try discriminate.
  apply andb_prop in H as [H1 H2]. apply teqb_true in H1, H2. congruence.
Qed.

Lemma fmt_label_month y m :
  1677 <= y <= 2262 -> 1 <= m <= 12 ->
  month_of_abbrev _MESES_PT (meses_get m) = Some m.
Proof.
  intros Hy Hm.
  assert (H : oz_eqb (month_of_abbrev _MESES_PT (meses_get m)) (Some m) = true).
  { revert Hy Hm.
    brute_force (fun (_ : Z) m => oz_eqb (month_of_abbrev _MESES_PT (meses_get m)) (Some m)) y m. }
  exact (oz_eqb_true _ _ H).
Qed.

Lemma fmt_label_year y m :
  1677 <= y <= 2262 -> 1 <= m <= 12 ->
  py_int (last2 (py_str_Z y)) = Some (y mod 100).
Proof.
  intros Hy Hm.
  assert (H : oz_eqb (py_int (last2 (py_str_Z y))) (Some (y mod 100)) = true).
  { revert Hy Hm.
    brute_force (fun y (_ : Z) => oz_eqb (py_int (last2 (py_str_Z y))) (Some (y mod 100))) y m. }
  exact (oz_eqb_true _ _ H).
Qed.

Lemma fmt_label_century y m :
  1677 <= y <= 2262 -> 1 <= m <= 12 ->
  fmt_label y m = fmt_label (2000 + y mod 100) m.
Proof.
  intros Hy Hm.
  assert (H : teqb (fmt_label y m) (fmt_label (2000 + y mod 100) m) = true).
  { revert Hy Hm.
    brute_force (fun y m => teqb (fmt_label y m) (fmt_label (2000 + y mod 100) m)) y m. }
  exact (teqb_true _ _ H).
Qed.

Lemma fmt_label_spec y m :
  2000 <= y <= 2099 -> 1 <= m <= 12 -> fmt_label y m = spec_label y m.
Proof.
  intros Hy Hm.
  assert (H : (negb (in_range 2000 2099 y) || teqb (fmt_label y m) (spec_label y m)) = true).
  { assert (Hy' : 1677 <= y <= 2262) by lia. revert Hy' Hm.
    brute_force (fun y m =>
      negb (in_range 2000 2099 y) || teqb (fmt_label y m) (spec_label y m)) y m. }
  assert (E : in_range 2000 2099 y = true).
  { unfold in_range. apply andb_true_intro; split; apply Z.leb_le; lia. }
  rewrite E in H. exact (teqb_true _ _ H).
Qed.

Lemma meses_get_some m :
  1 <= m <= 12 -> assoc_Z m _MESES_PT = Some (meses_get m).
Proof.
  intro Hm.
  assert (m = 1 \/ m = 2 \/ m = 3 \/ m = 4 \/ m = 5 \/ m = 6 \/ m = 7 \/ m = 8
          \/ m = 9 \/ m = 10 \/ m = 11 \/ m = 12) by lia.
  repeat (destruct H as [->|H]; [reflexivity|]). subst. reflexivity.
Qed.

Lemma ts_bounds_range y m d :
  1 <= m <= 12 -> 1 <= d <= 31 -> ts_in_bounds y m d = true -> 1677 <= y <= 2262.
Proof.
  unfold ts_in_bounds. intros Hm Hd H. bool_facts. lia.
Qed.

Lemma year_month_ok_some p y m :
  year_month_ok p = Some (y, m) -> fst p = Some y /\ snd p = Some m.
Proof.
  destruct p as [[a|] [b|]]; simpl; try discriminate.
  destruct (negb (a =? 0) && negb (b =? 0)); [|discriminate].
  intro H. apply Some_inj in H. injection H as -> ->. auto.
Qed.

Lemma year_month_ok_range s y m :
  year_month_ok (_extract_year_month_from_string s) = Some (y, m) ->
  2000 <= y <= 2099 /\ 1 <= m <= 12.
Proof.
  intro H. apply year_month_ok_some in H as [H1 H2].
  pose proof (extract_year_range s) as Hy. rewrite H1 in Hy.
  split; [exact Hy | exact (extract_month_range _ _ H2)].
Qed.

Lemma century_mod y : 2000 <= y <= 2099 -> 2000 + y mod 100 = y.
Proof.
  intro H. assert (E : y mod 100 = y - 2000).
  { symmetry. apply Z.mod_unique with 20; lia. }
  lia.
Qed.

Section FormatFacts.

Variable parse_str : text -> option (Z * Z).
Variable parse_num : Z -> option (Z * Z).
(** A [Timestamp] lies between 1677 and 2262 and has a month 1..12. *)
Hypothesis parse_str_range :
  forall s y m, parse_str s = Some (y, m) -> 1677 <= y <= 2262 /\ 1 <= m <= 12.
Hypothesis parse_num_range :
  forall n y m, parse_num n = Some (y, m) -> 1677 <= y <= 2262 /\ 1 <= m <= 12.

Lemma to_datetime_range v y m :
  wf_value v -> to_datetime parse_str parse_num v = Some (y, m) ->
  1677 <= y <= 2262 /\ 1 <= m <= 12.
Proof.
  destruct v as [y0 m0 d0|s|n| |]; simpl; intros Hwf H; try discriminate.
  - destruct (ts_in_bounds y0 m0 d0) eqn:E; [|discriminate].
    apply Some_inj in H. injection H as <- <-.
    destruct Hwf as (_ & Hm & Hd). split; [exact (ts_bounds_range _ _ _ Hm Hd E) | exact Hm].
  - exact (parse_str_range _ _ _ H).
  - exact (parse_num_range _ _ _ H).
Qed.

Lemma format_shape v l :
  wf_value v ->
  _format_period_from_maybe_date_or_string parse_str parse_num v = Some l ->
  exists y m, 1677 <= y <= 2262 /\ 1 <= m <= 12 /\ l = fmt_label y m.
Proof.
  intros Hwf. unfold _format_period_from_maybe_date_or_string.
  destruct (to_datetime parse_str parse_num v) as [[y m]|] eqn:E.
  - intro H. apply Some_inj in H. subst.
    destruct (to_datetime_range v y m Hwf E). exists y, m. auto.
  - destruct v as [| s | | |]; try discriminate.
    destruct (year_month_ok (_extract_year_month_from_string s)) as [[y m]|] eqn:E2;
      [|discriminate].
    intro H. apply Some_inj in H. subst.
    destruct (year_month_ok_range _ _ _ E2). exists y, m. repeat split; auto; lia.
Qed.

End FormatFacts.

(** ** The first loop, role by role *)

Lemma first_pass_split cols nd al fe :
  first_pass cols (nd, al, fe) =
  (fold_left (role_step exact_nd keyword_nd) cols nd,
   fold_left (role_step exact_aloc keyword_aloc) cols al,
   fold_left (role_step exact_fech keyword_fech) cols fe).
Proof.
  revert nd al fe. induction cols as [|c cs IH]; intros nd al fe; [reflexivity|].
  cbn [first_pass fold_left]. rewrite IH. reflexivity.
Qed.

Lemma first_col_sat p cols c : first_col p cols = Some c -> p c = true.
Proof.
  induction cols as [|c' cs IH]; simpl; [discriminate|].
  destruct (p c') eqn:E; [intro H; apply Some_inj in H; subst; exact E | exact IH].
Qed.

Lemma last_col_sat p cols c : last_col p cols = Some c -> p c = true.
Proof.
  induction cols as [|c' cs IH]; simpl; [discriminate|].
  destruct (last_col p cs) eqn:E; [exact IH|].
  destruct (p c') eqn:E'; [intro H; apply Some_inj in H; subst; exact E' | discriminate].
Qed.

Section RoleFold.

Variables ex kw : text -> bool.
(** Only a non-empty name can pass the tests. *)
Hypothesis nonempty : forall c, (ex c || kw c) = true -> c <> [].

Lemma truthy_sat c : (ex c || kw c) = true -> truthy (Some c) = true.
Proof.
  intro H. destruct c; [exfalso; exact (nonempty [] H eq_refl) | reflexivity].
Qed.

Lemma empty_fails : ex [] = false /\ kw [] = false.
Proof.
  destruct (ex []) eqn:E1; destruct (kw []) eqn:E2; auto;
    exfalso; apply (nonempty []); auto; rewrite E1, E2; reflexivity.
Qed.

Lemma role_fold cols acc :
  fold_left (role_step ex kw) cols acc =
  match last_col ex cols with
  | Some c => Some c
  | None =>
      if truthy acc then acc
      else match first_col kw cols with Some c => Some c | None => acc end
  end.
Proof.
  revert acc. induction cols as [|c cs IH]; intro acc.
  - simpl. destruct (truthy acc); reflexivity.
  - cbn [fold_left last_col first_col]. rewrite IH.
    destruct (last_col ex cs) as [c'|]; [reflexivity|].
    unfold role_step.
    destruct c as [|a c].
    + destruct empty_fails as [-> ->]. simpl. reflexivity.
    + destruct (ex (a :: c)); simpl; [reflexivity|].
      destruct (kw (a :: c)); destruct (truthy acc) eqn:Eacc; simpl;
        rewrite ?Eacc; reflexivity.
Qed.

Lemma role_final fb cols :
  fallback fb cols (fold_left (role_step ex kw) cols None) = role_choice ex kw fb cols.
Proof.
  rewrite role_fold. unfold role_choice, fallback.
  destruct (last_col ex cols) as [c|] eqn:E.
  - rewrite (truthy_sat c) by (rewrite (last_col_sat _ _ _ E); reflexivity). reflexivity.
  - simpl. destruct (first_col kw cols) as [c|] eqn:E2.
    + rewrite (truthy_sat c) by (rewrite (first_col_sat _ _ _ E2), orb_true_r; reflexivity).
      reflexivity.
    + simpl. destruct (first_col fb cols); reflexivity.
Qed.

End RoleFold.

Ltac empty_name := intros c H ->; vm_compute in H; discriminate.

(** * The claims *)

(** C1 (the code misses the spec): "Conjunto/25" is not read as September.
    When [pd.to_datetime] gives [NaT] on the string, the free-text path
    scans the months in order and month 6's keyword "jun" occurs inside
    "conjunto" before month 9's "conj"/"conjunto" are tried, so the label
    is "Jun/25", not "Set/25". *)
Theorem format_conjunto_is_june (parse_str : text -> option (Z * Z))
  (parse_num : Z -> option (Z * Z)) :
  parse_str (u "Conjunto/25") = None ->
  _format_period_from_maybe_date_or_string parse_str parse_num (VStr (u "Conjunto/25"))
  = Some (u "Jun/25").
Proof.
  intro H. unfold _format_period_from_maybe_date_or_string, to_datetime.
  rewrite H. vm_compute. reflexivity.
Qed.

Lemma format_conjunto_is_june_witness :
  iso_parse (u "Conjunto/25") = None /\
  _format_period_from_maybe_date_or_string iso_parse no_num (VStr (u "Conjunto/25"))
  = Some (u "Jun/25").
Proof.
  split; [vm_compute; reflexivity|].
  apply format_conjunto_is_june. vm_compute. reflexivity.
Defined.

(** C2 (the code misses the spec): on the columns
    ["Período ND", "Periodo_Fechamento", "Área"] the detector returns
    "Período ND" for ND and "Periodo_Fechamento" for closing, and ALSO
    "Periodo_Fechamento" for allocation: the allocation fallback accepts any
    name containing "periodo" and not "nd". *)
Theorem detect_example5_allocation :
  _detect_period_columns
    [u "Per" ++ [0xED] ++ u "odo ND"; u "Periodo_Fechamento"; [0xC1] ++ u "rea"]
  = (Some (u "Per" ++ [0xED] ++ u "odo ND"), Some (u "Periodo_Fechamento"),
     Some (u "Periodo_Fechamento")).
Proof. vm_compute. reflexivity. Qed.

(** C3 (the code misses the spec): in the fallback pass the allocation and
    closing tests are [any(k in n for k in KEYWORDS)] over lists that contain
    "periodo" itself, so every column whose normalized name contains
    "periodo" and not "nd" passes both, with no "aloc"/"fech" keyword. *)
Theorem fallback_accepts_periodo_only (c : text) :
  contains (u "periodo") (_normalize c) = true ->
  contains (u "nd") (_normalize c) = false ->
  fallback_aloc c = true /\ fallback_fech c = true
  /\ _detect_period_columns [u "Periodo"] = (None, Some (u "Periodo"), Some (u "Periodo")).
Proof.
  intros H1 H2. split; [|split].
  - unfold fallback_aloc, any_in, _KEYWORDS_ALOC. cbn [existsb].
    rewrite H1, H2. reflexivity.
  - unfold fallback_fech, any_in, _KEYWORDS_FECH. cbn [existsb].
    rewrite H1, H2. reflexivity.
  - vm_compute. reflexivity.
Qed.

Lemma fallback_accepts_periodo_only_witness :
  contains (u "periodo") (_normalize (u "Periodo")) = true /\
  contains (u "nd") (_normalize (u "Periodo")) = false /\
  (fallback_aloc (u "Periodo") = true /\ fallback_fech (u "Periodo") = true
   /\ _detect_period_columns [u "Periodo"] = (None, Some (u "Periodo"), Some (u "Periodo"))).
Proof.
  split; [vm_compute; reflexivity|]. split; [vm_compute; reflexivity|].
  apply fallback_accepts_periodo_only; vm_compute; reflexivity.
Defined.

Lemma iso_parse_range s y m :
  iso_parse s = Some (y, m) -> 1677 <= y <= 2262 /\ 1 <= m <= 12.
Proof.
  intro H. unfold iso_parse in H.
  destruct s as [|a [|b [|c [|d [|h [|e [|f rest]]]]]]]; try discriminate.
  repeat match type of H with
  | context [if ?b then _ else _] => destruct b eqn:?; try discriminate
  | context [match ?x with Some _ => _ | None => _ end] => destruct x; try discriminate
  end.
  apply Some_inj in H. injection H as <- <-. bool_facts. lia.
Qed.

Lemma no_num_range n y m : no_num n = Some (y, m) -> 1677 <= y <= 2262 /\ 1 <= m <= 12.
Proof. discriminate. Qed.

(** C4, as stated, fails: an exactly named column takes the ND role from an
    earlier column that already had it. *)
Lemma detect_exact_name_overrides_earlier :
  keyword_nd (u "Per" ++ [0xED] ++ u "odo ND Antigo") = true /\
  _detect_period_columns [u "Per" ++ [0xED] ++ u "odo ND Antigo"; u "Per" ++ [0xED] ++ u "odo ND"]
  = (Some (u "Per" ++ [0xED] ++ u "odo ND"), None, None).
Proof. split; vm_compute; reflexivity. Qed.

(** C4 (as amended): each role goes to the LAST column whose stripped,
    lowercased name is one of the role's exact names; if there is none, to
    the earliest column passing the first loop's keyword test; if there is
    none, to the earliest column passing the fallback test.  So a role
    filled by the first loop is never changed by the fallback loop, and
    within the first loop only an exact name replaces an earlier choice. *)
Theorem detect_roles_choice (cols : list text) :
  _detect_period_columns cols =
  (role_choice exact_nd keyword_nd fallback_nd cols,
   role_choice exact_aloc keyword_aloc fallback_aloc cols,
   role_choice exact_fech keyword_fech fallback_fech cols).
Proof.
  unfold _detect_period_columns. rewrite first_pass_split. cbv beta iota zeta.
  rewrite !role_final; [reflexivity | empty_name | empty_name | empty_name].
Qed.

(** C5: the converter is a total function: on every well-formed cell it
    returns [None] or a period label "<Abbrev>/<two digits>" with the
    abbreviation from [_MESES_PT]; the [try] turns every failure of
    [pd.to_datetime] into the free-text attempt, which cannot fail. *)
Theorem format_period_total (parse_str : text -> option (Z * Z))
  (parse_num : Z -> option (Z * Z))
  (Hs : forall s y m, parse_str s = Some (y, m) -> 1677 <= y <= 2262 /\ 1 <= m <= 12)
  (Hn : forall n y m, parse_num n = Some (y, m) -> 1677 <= y <= 2262 /\ 1 <= m <= 12)
  (v : value) :
  wf_value v ->
  _format_period_from_maybe_date_or_string parse_str parse_num v = None \/
  exists l, _format_period_from_maybe_date_or_string parse_str parse_num v = Some l
            /\ is_period_label l.
Proof.
  intro Hwf.
  destruct (_format_period_from_maybe_date_or_string parse_str parse_num v) as [l|] eqn:E;
    [right | left; reflexivity].
  exists l. split; [reflexivity|].
  destruct (format_shape _ _ Hs Hn v l Hwf E) as (y & m & Hy & Hm & ->).
  destruct (fmt_label_digits y m Hy Hm) as [Hl Hd].
  exists m, (meses_get m), (last2 (py_str_Z y)).
  repeat split; auto using meses_get_some.
Qed.

Lemma format_period_total_witness :
  (forall s y m, iso_parse s = Some (y, m) -> 1677 <= y <= 2262 /\ 1 <= m <= 12) /\
  (forall n y m, no_num n = Some (y, m) -> 1677 <= y <= 2262 /\ 1 <= m <= 12) /\
  wf_value (VStr (u "2025-09")) /\
  (_format_period_from_maybe_date_or_string iso_parse no_num (VStr (u "2025-09")) = None \/
   exists l, _format_period_from_maybe_date_or_string iso_parse no_num (VStr (u "2025-09")) = Some l
             /\ is_period_label l).
Proof.
  split; [exact iso_parse_range|]. split; [exact no_num_range|].
  split; [exact I|].
  apply (format_period_total iso_parse no_num iso_parse_range no_num_range). exact I.
Defined.

(** C8: a date of the years 2000..2099 gets the label
    "<Abbrev[month]>/<two-digit year>" of the spec's table Jan..Dez. *)
Theorem format_date_label (parse_str : text -> option (Z * Z))
  (parse_num : Z -> option (Z * Z)) (y m d : Z) :
  2000 <= y <= 2099 -> 1 <= m <= 12 -> 1 <= d <= 31 ->
  _format_period_from_maybe_date_or_string parse_str parse_num (VDate y m d)
  = Some (spec_label y m).
Proof.
  intros Hy Hm Hd. unfold _format_period_from_maybe_date_or_string, to_datetime.
  assert (E : ts_in_bounds y m d = true).
  { unfold ts_in_bounds. apply andb_true_intro. split; [apply Z.ltb_lt | apply Z.leb_le]; lia. }
  rewrite E. f_equal. apply fmt_label_spec; assumption.
Qed.

Lemma format_date_label_witness :
  2000 <= 2025 <= 2099 /\ 1 <= 9 <= 12 /\ 1 <= 1 <= 31 /\
  _format_period_from_maybe_date_or_string iso_parse no_num (VDate 2025 9 1)
  = Some (spec_label 2025 9).
Proof.
  split; [lia|]. split; [lia|]. split; [lia|].
  apply format_date_label; lia.
Defined.

(** C9, as stated, fails: the date 1999-09-01 gets the label "Set/99",
    which the free-text path reads back as (2099, 9). *)
Lemma roundtrip_fails_1999 :
  _format_period_from_maybe_date_or_string iso_parse no_num (VDate 1999 9 1)
  = Some (u "Set/99") /\
  _extract_year_month_from_string (u "Set/99") = (Some 2099, Some 9).
Proof. split; vm_compute; reflexivity. Qed.

(** C9 (as amended): a label made from a [Timestamp] (year, month) is read
    back by the free-text path as (2000 + year mod 100, month), which is
    (year, month) for the years 2000..2099; a label made by the free-text
    path from (year, month) is read back as exactly (year, month). *)
Theorem format_label_roundtrip (parse_str : text -> option (Z * Z))
  (parse_num : Z -> option (Z * Z))
  (Hs : forall s y m, parse_str s = Some (y, m) -> 1677 <= y <= 2262 /\ 1 <= m <= 12)
  (Hn : forall n y m, parse_num n = Some (y, m) -> 1677 <= y <= 2262 /\ 1 <= m <= 12)
  (v : value) :
  wf_value v ->
  (forall y m, to_datetime parse_str parse_num v = Some (y, m) ->
     exists l, _format_period_from_maybe_date_or_string parse_str parse_num v = Some l
       /\ _extract_year_month_from_string l = (Some (2000 + y mod 100), Some m)
       /\ (2000 <= y <= 2099 -> _extract_year_month_from_string l = (Some y, Some m)))
  /\
  (forall s y m, v = VStr s -> to_datetime parse_str parse_num v = None ->
     year_month_ok (_extract_year_month_from_string s) = Some (y, m) ->
     exists l, _format_period_from_maybe_date_or_string parse_str parse_num v = Some l
       /\ _extract_year_month_from_string l = (Some y, Some m)).
Proof.
  intro Hwf. split.
  - intros y m E. destruct (to_datetime_range _ _ Hs Hn v y m Hwf E) as [Hy Hm].
    exists (fmt_label y m).
    unfold _format_period_from_maybe_date_or_string. rewrite E.
    split; [reflexivity|]. rewrite fmt_label_extract by assumption.
    split; [reflexivity|]. intro Hy'.
    rewrite century_mod by lia. reflexivity.
  - intros s y m -> E E2. destruct (year_month_ok_range _ _ _ E2) as [Hy Hm].
    exists (fmt_label y m).
    unfold _format_period_from_maybe_date_or_string. rewrite E, E2.
    split; [reflexivity|]. rewrite fmt_label_extract by lia.
    rewrite century_mod by lia. reflexivity.
Qed.

Lemma format_label_roundtrip_witness :
  (forall s y m, iso_parse s = Some (y, m) -> 1677 <= y <= 2262 /\ 1 <= m <= 12) /\
  (forall n y m, no_num n = Some (y, m) -> 1677 <= y <= 2262 /\ 1 <= m <= 12) /\
  wf_value (VDate 2025 9 1) /\
  (forall y m, to_datetime iso_parse no_num (VDate 2025 9 1) = Some (y, m) ->
     exists l, _format_period_from_maybe_date_or_string iso_parse no_num (VDate 2025 9 1) = Some l
       /\ _extract_year_month_from_string l = (Some (2000 + y mod 100), Some m)
       /\ (2000 <= y <= 2099 -> _extract_year_month_from_string l = (Some y, Some m)))
  /\
  (forall s y m, VDate 2025 9 1 = VStr s -> to_datetime iso_parse no_num (VDate 2025 9 1) = None ->
     year_month_ok (_extract_year_month_from_string s) = Some (y, m) ->
     exists l, _format_period_from_maybe_date_or_string iso_parse no_num (VDate 2025 9 1) = Some l
       /\ _extract_year_month_from_string l = (Some y, Some m)).
Proof.
  split; [exact iso_parse_range|]. split; [exact no_num_range|].
  assert (W : wf_value (VDate 2025 9 1)) by (simpl; lia).
  split; [exact W|].
  exact (format_label_roundtrip iso_parse no_num iso_parse_range no_num_range _ W).
Defined.

(** C10: a year found by the free-text path always lies in 2000..2099. *)
Theorem extract_year_in_century (s : text) :
  match fst (_extract_year_month_from_string s) with
  | Some y => 2000 <= y <= 2099
  | None => True
  end.
Proof. exact (extract_year_range s). Qed.

(** ** Insertion sort *)

Section Isort.

Context {A : Type} (le : A -> A -> bool).
Hypothesis le_total : forall a b, le a b = false -> le b a = true.

Lemma insert_perm x l : Permutation (insert le x l) (x :: l).
Proof.
  induction l as [|y l IH]; simpl; [reflexivity|].
  destruct (le x y); [reflexivity|].
  rewrite IH. apply perm_swap.
Qed.

Lemma isort_perm l : Permutation (isort le l) l.
Proof.
  induction l as [|x l IH]; simpl; [reflexivity|].
  rewrite insert_perm, IH. reflexivity.
Qed.

Lemma insert_sorted x l :
  Sorted (fun a b => le a b = true) l -> Sorted (fun a b => le a b = true) (insert le x l).
Proof.
  induction l as [|y l IH]; intro HS; simpl; [constructor; constructor|].
  destruct (le x y) eqn:E; [constructor; [exact HS | constructor; exact E]|].
  apply Sorted_inv in HS as [HS Hd].
  constructor; [exact (IH HS)|].
  destruct l as [|z l]; simpl; [constructor; apply le_total; exact E|].
  destruct (le x z); constructor; [apply le_total; exact E|].
  inversion Hd; assumption.
Qed.

Lemma isort_sorted l : Sorted (fun a b => le a b = true) (isort le l).
Proof.
  induction l as [|x l IH]; simpl; [constructor|]. apply insert_sorted, IH.
Qed.

End Isort.

Lemma key_leb_total a b : key_leb a b = false -> key_leb b a = true.
Proof.
  destruct a as [[y1 m1] l1], b as [[y2 m2] l2]. unfold key_leb.
  destruct (Z.ltb_spec y1 y2), (Z.eqb_spec y1 y2), (Z.leb_spec m1 m2),
           (Z.ltb_spec y2 y1), (Z.eqb_spec y2 y1), (Z.leb_spec m2 m1);
    simpl; intro Hf; try discriminate; try reflexivity; lia.
Qed.

Lemma text_leb_total a b : text_leb a b = false -> text_leb b a = true.
Proof.
  revert b. induction a as [|x a IH]; intros [|y b]; simpl; try discriminate; auto.
  destruct (Z.ltb_spec x y), (Z.eqb_spec x y), (Z.ltb_spec y x), (Z.eqb_spec y x);
    simpl; intro Hf; try discriminate; try reflexivity; try lia.
  subst. auto.
Qed.

Lemma sorted_keys_strict l :
  Sorted (fun a b => key_leb a b = true) l -> NoDup (map key l) -> Sorted key_lt (map key l).
Proof.
  induction l as [|a l IH]; intros HS HN; simpl; [constructor|].
  apply Sorted_inv in HS as [HS Hd]. inversion HN as [|? ? Hnin HN']; subst.
  constructor; [exact (IH HS HN')|].
  destruct l as [|b l]; simpl; constructor.
  inversion Hd as [|? ? Hab]; subst.
  assert (Hne : key a <> key b) by (intro E; apply Hnin; rewrite E; left; reflexivity).
  destruct a as [[y1 m1] l1], b as [[y2 m2] l2]. unfold key_leb in Hab. simpl in *.
  unfold key_lt; simpl.
  destruct (Z.ltb_spec y1 y2), (Z.eqb_spec y1 y2), (Z.leb_spec m1 m2);
    simpl in Hab; try discriminate; try (left; lia).
  right. split; [lia|]. assert (m1 <> m2) by (intro; subst; congruence). lia.
Qed.

Lemma canon_key_inj t1 t2 : canon t1 -> canon t2 -> key t1 = key t2 -> t1 = t2.
Proof.
  intros (y1 & m1 & -> & _) (y2 & m2 & -> & _). simpl. congruence.
Qed.

Lemma canon_third t : canon t -> third t = label_of (key t).
Proof. intros (y & m & -> & _). reflexivity. Qed.

Lemma label_of_extract k :
  2000 <= fst k <= 2099 -> 1 <= snd k <= 12 ->
  _extract_year_month_from_string (label_of k) = (Some (fst k), Some (snd k)).
Proof.
  intros Hy Hm. unfold label_of. rewrite fmt_label_extract by lia.
  rewrite century_mod by lia. reflexivity.
Qed.

Lemma truthy_pair y m : 1 <= y -> 1 <= m -> truthy_int (Some y) && truthy_int (Some m) = true.
Proof.
  intros Hy Hm. unfold truthy_int.
  destruct (Z.eqb_spec y 0), (Z.eqb_spec m 0); simpl; try lia; reflexivity.
Qed.

(** ** The option loop *)

Section Options.

Variable parse_str : text -> option (Z * Z).
Variable parse_num : Z -> option (Z * Z).
Hypothesis parse_str_range :
  forall s y m, parse_str s = Some (y, m) -> 1677 <= y <= 2262 /\ 1 <= m <= 12.
Hypothesis parse_num_range :
  forall n y m, parse_num n = Some (y, m) -> 1677 <= y <= 2262 /\ 1 <= m <= 12.

Lemma options_step_inv seen st v :
  wf_value v -> options_inv parse_str parse_num seen st ->
  exists st', options_step parse_str parse_num st v = Some st'
              /\ options_inv parse_str parse_num (seen ++ [v]) st'.
Proof.
  intros Hwf Hinv.
  destruct st as [tuples others]. destruct Hinv as (Hc & Hnd & Ho & Hs).
  (* what holds of the next state whatever the branch *)
  assert (Keep : forall tuples' others',
    (forall t, In t tuples -> In t tuples') -> (forall x, In x others -> In x others') ->
    Forall (fun x => year_month_ok (_extract_year_month_from_string x) = None /\
             exists w, In w (seen ++ [v])
               /\ _format_period_from_maybe_date_or_string parse_str parse_num w = None
               /\ py_notna w = true /\ py_str w = x) others /\
    Forall (fun w =>
            (forall l, _format_period_from_maybe_date_or_string parse_str parse_num w = Some l ->
                       exists t, In t tuples' /\ third t = l) /\
            (_format_period_from_maybe_date_or_string parse_str parse_num w = None ->
             py_notna w = true ->
             year_month_ok (_extract_year_month_from_string (py_str w)) = None ->
             In (py_str w) others')) seen).
  { intros tuples' others' Ht Hx. split.
    - eapply Forall_impl; [|exact Ho]. simpl.
      intros x [Hx0 (w & Hw & Hf & Hp)]. split; [exact Hx0|].
      exists w. split; [apply in_or_app; left; exact Hw|]. auto.
    - eapply Forall_impl; [|exact Hs]. simpl.
      intros w [H1 H2]. split.
      + intros l Hl. destruct (H1 l Hl) as (t & Hin & Ht3). eauto.
      + intros Hf Hp He. apply Hx, H2; assumption. }
  assert (Grow : forall t x, In t tuples -> In t (tuples ++ [x]))
    by (intros; apply in_or_app; left; assumption).
  unfold options_step.
  destruct (_format_period_from_maybe_date_or_string parse_str parse_num v) as [lbl|] eqn:Ef.
  - destruct (format_shape parse_str parse_num parse_str_range parse_num_range v lbl Hwf Ef)
      as (y & m & Hy & Hm & ->).
    rewrite (fmt_label_split y m Hy Hm).
    destruct (fmt_label_digits y m Hy Hm) as [Hl _].
    cbv beta iota zeta.
    rewrite (fmt_label_month y m Hy Hm), Hl, (fmt_label_year y m Hy Hm).
    cbn [Nat.eqb option_map].
    pose proof (Z.mod_pos_bound y 100) as Hb.
    rewrite truthy_pair by lia.
    eexists; split; [reflexivity|].
    destruct (Keep (tuples ++ [(2000 + y mod 100, m, fmt_label y m)]) others
                (fun t H => Grow t _ H) (fun x H => H)) as [Ho' Hs'].
    split; [|split; [exact Hnd|split; [exact Ho'|]]].
    + apply Forall_app. split; [exact Hc|]. constructor; [|constructor].
      exists (2000 + y mod 100), m. rewrite <- (fmt_label_century y m Hy Hm).
      repeat split; lia.
    + apply Forall_app. split; [exact Hs'|]. constructor; [|constructor].
      split; [|intro Hf; rewrite Ef in Hf; discriminate].
      intros l Hl0. rewrite Ef in Hl0. apply Some_inj in Hl0. subst l.
      eexists. split; [apply in_or_app; right; left; reflexivity | reflexivity].
  - destruct (year_month_ok (_extract_year_month_from_string (py_str v))) as [[y m]|] eqn:Ey.
    + eexists; split; [reflexivity|].
      destruct (year_month_ok_range _ _ _ Ey) as [Hy Hm].
      destruct (Keep (tuples ++ [(y, m, fmt_label y m)]) others
                  (fun t H => Grow t _ H) (fun x H => H)) as [Ho' Hs'].
      split; [|split; [exact Hnd|split; [exact Ho'|]]].
      * apply Forall_app. split; [exact Hc|]. constructor; [|constructor].
        exists y, m. auto.
      * apply Forall_app. split; [exact Hs'|]. constructor; [|constructor].
        split; [intros l Hl; rewrite Ef in Hl; discriminate|].
        intros _ _ He. rewrite Ey in He. discriminate.
    + eexists; split; [reflexivity|].
      destruct (py_notna v) eqn:En.
      * destruct (Keep tuples (set_add text_eq_dec (py_str v) others)
                  (fun t H => H) (fun x H => set_add_intro1 _ _ _ _ H)) as [Ho' Hs'].
        split; [exact Hc|]. split; [apply set_add_nodup; exact Hnd|]. split.
        -- apply Forall_forall. intros x Hx. apply set_add_iff in Hx as [->|Hx].
           ++ split; [exact Ey|]. exists v.
              split; [apply in_or_app; right; left; reflexivity|]. auto.
           ++ exact (proj1 (Forall_forall _ _) Ho' x Hx).
        -- apply Forall_app. split; [exact Hs'|]. constructor; [|constructor].
           split; [intros l Hl; rewrite Ef in Hl; discriminate|].
           intros _ _ _. apply set_add_intro2. reflexivity.
      * destruct (Keep tuples others (fun t H => H) (fun x H => H)) as [Ho' Hs'].
        split; [exact Hc|]. split; [exact Hnd|]. split; [exact Ho'|].
        apply Forall_app. split; [exact Hs'|]. constructor; [|constructor].
        split; [intros l Hl; rewrite Ef in Hl; discriminate|].
        intros _ Hn. rewrite En in Hn. discriminate.
Qed.

Lemma options_loop_inv vs seen st :
  Forall wf_value vs -> options_inv parse_str parse_num seen st ->
  exists st', options_loop parse_str parse_num vs st = Some st'
              /\ options_inv parse_str parse_num (seen ++ vs) st'.
Proof.
  revert seen st. induction vs as [|v vs IH]; intros seen st Hwf Hinv; simpl.
  - exists st. rewrite app_nil_r. auto.
  - inversion Hwf as [|? ? Hv Hvs]; subst.
    destruct (options_step_inv seen st v Hv Hinv) as (st1 & -> & Hinv1).
    destruct (IH (seen ++ [v]) st1 Hvs Hinv1) as (st2 & -> & Hinv2).
    exists st2. split; [reflexivity|]. rewrite <- app_assoc in Hinv2. exact Hinv2.
Qed.

End Options.

(** The shape of the option list, for any sequence of cells. *)
Lemma options_shape (parse_str : text -> option (Z * Z))
  (parse_num : Z -> option (Z * Z))
  (Hs : forall s y m, parse_str s = Some (y, m) -> 1677 <= y <= 2262 /\ 1 <= m <= 12)
  (Hn : forall n y m, parse_num n = Some (y, m) -> 1677 <= y <= 2262 /\ 1 <= m <= 12)
  (vs : list value) :
  Forall wf_value vs ->
  exists K U,
    _period_options_ordered_from_series parse_str parse_num vs = Some (map label_of K ++ U)
    /\ NoDup (map label_of K ++ U)
    /\ Sorted key_lt K
    /\ Forall (fun k => 2000 <= fst k <= 2099 /\ 1 <= snd k <= 12 /\
                 _extract_year_month_from_string (label_of k) = (Some (fst k), Some (snd k))) K
    /\ Sorted (fun a b => text_leb a b = true) U
    /\ (forall x, In x U <->
          exists v, In v vs
            /\ _format_period_from_maybe_date_or_string parse_str parse_num v = None
            /\ py_notna v = true
            /\ year_month_ok (_extract_year_month_from_string (py_str v)) = None
            /\ py_str v = x)
    /\ (forall v l, In v vs ->
          _format_period_from_maybe_date_or_string parse_str parse_num v = Some l ->
          In l (map label_of K)).
Proof.
  intro Hwf.
  destruct (options_loop_inv parse_str parse_num Hs Hn vs [] ([], []) Hwf)
    as ([tuples others] & Hl & Hinv); [simpl; repeat constructor|].
  destruct Hinv as (Hc & Hnd & Ho & Hall).
  unfold _period_options_ordered_from_series. rewrite Hl. cbv beta iota zeta.
  set (O := isort key_leb (nodup triple_eq_dec tuples)).
  exists (map key O), (isort text_leb others).
  assert (HO : forall t, In t O <-> In t tuples).
  { intro t. unfold O. split; intro H.
    - apply (Permutation_in _ (isort_perm key_leb _)) in H. apply nodup_In in H. exact H.
    - apply (Permutation_in _ (Permutation_sym (isort_perm key_leb _))).
      apply nodup_In. exact H. }
  assert (HcO : Forall canon O).
  { apply Forall_forall. intros t Ht. apply HO in Ht.
    exact (proj1 (Forall_forall _ _) Hc t Ht). }
  assert (Hthird : map third O = map label_of (map key O)).
  { rewrite map_map. apply map_ext_in. intros t Ht.
    apply canon_third. exact (proj1 (Forall_forall _ _) HcO t Ht). }
  assert (HNO : NoDup O).
  { apply (Permutation_NoDup (Permutation_sym (isort_perm key_leb _))). apply NoDup_nodup. }
  assert (HNK : NoDup (map key O)).
  { apply NoDup_map_NoDup_ForallPairs; [|exact HNO].
    intros a b Ha Hb. apply canon_key_inj;
      [exact (proj1 (Forall_forall _ _) HcO a Ha) | exact (proj1 (Forall_forall _ _) HcO b Hb)]. }
  assert (HK : Forall (fun k => 2000 <= fst k <= 2099 /\ 1 <= snd k <= 12 /\
                 _extract_year_month_from_string (label_of k) = (Some (fst k), Some (snd k)))
                 (map key O)).
  { apply Forall_forall. intros k Hk. apply in_map_iff in Hk as (t & <- & Ht).
    destruct (proj1 (Forall_forall _ _) HcO t Ht) as (y & m & -> & Hy & Hm).
    split; [exact Hy|]. split; [exact Hm|].
    exact (label_of_extract (y, m) Hy Hm). }
  assert (HU : forall x, In x (isort text_leb others) <-> In x others).
  { intro x. split; intro H.
    - exact (Permutation_in _ (isort_perm text_leb others) H).
    - exact (Permutation_in _ (Permutation_sym (isort_perm text_leb others)) H). }
  split; [rewrite Hthird; reflexivity|].
  split.
  { apply NoDup_app.
    - apply NoDup_map_NoDup_ForallPairs; [|exact HNK].
      intros a b Ha Hb E.
      destruct (proj1 (Forall_forall _ _) HK a Ha) as (_ & _ & Ea).
      destruct (proj1 (Forall_forall _ _) HK b Hb) as (_ & _ & Eb).
      rewrite E, Eb in Ea. destruct a, b. simpl in Ea. congruence.
    - exact (Permutation_NoDup (Permutation_sym (isort_perm text_leb others)) Hnd).
    - intros a Ha Hin. apply HU in Hin.
      destruct (proj1 (Forall_forall _ _) Ho a Hin) as [Hnone _].
      apply in_map_iff in Ha as (k & <- & Hk).
      destruct (proj1 (Forall_forall _ _) HK k Hk) as (Hy & Hm & Ek).
      unfold year_month_ok in Hnone. rewrite Ek, truthy_pair in Hnone by lia.
      discriminate. }
  split; [exact (sorted_keys_strict O (isort_sorted key_leb key_leb_total _) HNK)|].
  split; [exact HK|].
  split; [exact (isort_sorted text_leb text_leb_total others)|].
  split.
  - intro x. rewrite HU. split.
    + intro Hx. destruct (proj1 (Forall_forall _ _) Ho x Hx)
        as (Hnone & v & Hv & Hf & Hp & <-).
      exists v. auto.
    + intros (v & Hv & Hf & Hp & He & <-).
      exact (proj2 (proj1 (Forall_forall _ _) Hall v Hv) Hf Hp He).
  - intros v l Hv Hf.
    destruct (proj1 (proj1 (Forall_forall _ _) Hall v Hv) l Hf) as (t & Ht & <-).
    rewrite <- Hthird. apply in_map. apply HO. exact Ht.
Qed.

(** C6: for every sequence of cells, the option list has no duplicate; it
    is the labels of a list of (year, month) keys in strictly ascending
    order (each label reads back as its key), followed by the unresolved
    entries sorted as Python sorts [str]; these are exactly the [str] of
    the non-null cells that neither the converter nor the free-text
    extractor resolves, and every label the converter gives a cell is in the
    first part. *)
Theorem ordered_options_shape (parse_str : text -> option (Z * Z))
  (parse_num : Z -> option (Z * Z))
  (Hs : forall s y m, parse_str s = Some (y, m) -> 1677 <= y <= 2262 /\ 1 <= m <= 12)
  (Hn : forall n y m, parse_num n = Some (y, m) -> 1677 <= y <= 2262 /\ 1 <= m <= 12)
  (vs : list value) :
  Forall wf_value vs ->
  exists K U,
    _period_options_ordered_from_series parse_str parse_num vs = Some (map label_of K ++ U)
    /\ NoDup (map label_of K ++ U)
    /\ Sorted key_lt K
    /\ Forall (fun k => 2000 <= fst k <= 2099 /\ 1 <= snd k <= 12 /\
                 _extract_year_month_from_string (label_of k) = (Some (fst k), Some (snd k))) K
    /\ Sorted (fun a b => text_leb a b = true) U
    /\ (forall x, In x U <->
          exists v, In v vs
            /\ _format_period_from_maybe_date_or_string parse_str parse_num v = None
            /\ py_notna v = true
            /\ year_month_ok (_extract_year_month_from_string (py_str v)) = None
            /\ py_str v = x)
    /\ (forall v l, In v vs ->
          _format_period_from_maybe_date_or_string parse_str parse_num v = Some l ->
          In l (map label_of K)).
Proof. exact (options_shape parse_str parse_num Hs Hn vs). Qed.

Lemma ordered_options_shape_witness :
  (forall s y m, iso_parse s = Some (y, m) -> 1677 <= y <= 2262 /\ 1 <= m <= 12) /\
  (forall n y m, no_num n = Some (y, m) -> 1677 <= y <= 2262 /\ 1 <= m <= 12) /\
  Forall wf_value [VStr (u "2025-09"); VDate 2024 1 5; VStr (u "blah"); VNone; VStr (u "Set/25"); VStr (u "abc")] /\
  exists K U,
    _period_options_ordered_from_series iso_parse no_num
      [VStr (u "2025-09"); VDate 2024 1 5; VStr (u "blah"); VNone; VStr (u "Set/25"); VStr (u "abc")] = Some (map label_of K ++ U)
    /\ NoDup (map label_of K ++ U)
    /\ Sorted key_lt K
    /\ Forall (fun k => 2000 <= fst k <= 2099 /\ 1 <= snd k <= 12 /\
                 _extract_year_month_from_string (label_of k) = (Some (fst k), Some (snd k))) K
    /\ Sorted (fun a b => text_leb a b = true) U
    /\ (forall x, In x U <->
          exists v, In v [VStr (u "2025-09"); VDate 2024 1 5; VStr (u "blah"); VNone; VStr (u "Set/25"); VStr (u "abc")]
            /\ _format_period_from_maybe_date_or_string iso_parse no_num v = None
            /\ py_notna v = true
            /\ year_month_ok (_extract_year_month_from_string (py_str v)) = None
            /\ py_str v = x)
    /\ (forall v l, In v [VStr (u "2025-09"); VDate 2024 1 5; VStr (u "blah"); VNone; VStr (u "Set/25"); VStr (u "abc")] ->
          _format_period_from_maybe_date_or_string iso_parse no_num v = Some l ->
          In l (map label_of K)).
Proof.
  assert (Hwf : Forall wf_value [VStr (u "2025-09"); VDate 2024 1 5; VStr (u "blah"); VNone; VStr (u "Set/25"); VStr (u "abc")]).
  { repeat apply Forall_cons; try apply Forall_nil; simpl; try exact I; lia. }
  split; [exact iso_parse_range|]. split; [exact no_num_range|].
  split; [exact Hwf|].
  exact (ordered_options_shape iso_parse no_num iso_parse_range no_num_range _ Hwf).
Defined.

(** ** The filters of [app] *)

Lemma teqb_refl a : teqb a a = true.
Proof. induction a as [|x a IH]; simpl; [reflexivity|]. rewrite Z.eqb_refl. exact IH. Qed.

Lemma filter_filter_andb {A} (f g : A -> bool) l :
  filter f (filter g l) = filter (fun x => g x && f x) l.
Proof.
  induction l as [|x l IH]; simpl; [reflexivity|].
  destruct (g x); simpl; [destruct (f x)|]; simpl; rewrite ?IH; reflexivity.
Qed.

(** C7 (counterexample): a cell holding the text "None" makes "None" a
    period option; selecting it keeps a row whose period is unresolved,
    since [astype(str)] turns the [None] of its [_fmt] cell into "None". *)
Lemma filter_none_keeps_unresolved :
  _period_options_ordered_from_series iso_parse no_num [VStr (u "None"); VStr (u "blah")]
    = Some [u "None"; u "blah"]
  /\ _format_period_from_maybe_date_or_string iso_parse no_num (VStr (u "blah")) = None
  /\ List.length
       (aplica_filtros [(u "Período ND_fmt", [u "None"])]
          [add_fmt_column iso_parse no_num (u "Período ND_fmt") (u "Período ND")
             (fun c => if teqb c (u "Período ND") then VStr (u "blah") else VNone)]) = 1%nat.
Proof. vm_compute. repeat split. Qed.

Lemma filter_map_comm {A B} (f : B -> bool) (g : A -> B) l :
  filter f (map g l) = map g (filter (fun x => f (g x)) l).
Proof.
  induction l as [|x l IH]; simpl; [reflexivity|]. rewrite IH. destruct (f (g x)); reflexivity.
Qed.

Lemma isin_add_fmt_column parse_str parse_num fmt_key src r valores :
  isin (add_fmt_column parse_str parse_num fmt_key src r fmt_key) valores =
  existsb (teqb (match _format_period_from_maybe_date_or_string parse_str parse_num (r src) with
                 | Some l => l
                 | None => u "None"
                 end)) valores.
Proof.
  unfold add_fmt_column, isin. rewrite teqb_refl.
  destruct (_format_period_from_maybe_date_or_string parse_str parse_num (r src)); reflexivity.
Qed.

Lemma aplica_filtros_filter filtros df :
  aplica_filtros filtros df =
  filter (fun r => forallb (fun f => match snd f with
                                     | [] => true
                                     | _ :: _ => isin (r (fst f)) (snd f)
                                     end) filtros) df.
Proof.
  revert df. induction filtros as [|[k vs] fs IH]; intro df; simpl.
  - induction df as [|r df IHdf]; simpl; [reflexivity|]. rewrite <- IHdf. reflexivity.
  - rewrite IH. destruct vs as [|v vs]; simpl.
    + reflexivity.
    + rewrite filter_filter_andb. reflexivity.
Qed.

Lemma aplica_filtros_fmt parse_str parse_num fmt_key src valores rows :
  aplica_filtros [(fmt_key, valores)] (map (add_fmt_column parse_str parse_num fmt_key src) rows) =
  map (add_fmt_column parse_str parse_num fmt_key src)
      (filter (fun r => match valores with
                        | [] => true
                        | _ :: _ =>
                            existsb (teqb (match _format_period_from_maybe_date_or_string
                                                   parse_str parse_num (r src) with
                                           | Some l => l
                                           | None => u "None"
                                           end)) valores
                        end) rows).
Proof.
  destruct valores as [|v vs]; simpl.
  - rewrite filter_true. reflexivity.
  - rewrite filter_map_comm. f_equal. apply filter_ext. intro r.
    exact (isin_add_fmt_column parse_str parse_num fmt_key src r (v :: vs)).
Qed.

Lemma format_text_None parse_str parse_num :
  parse_str (u "None") = None ->
  _format_period_from_maybe_date_or_string parse_str parse_num (VStr (u "None")) = None.
Proof.
  intro H. unfold _format_period_from_maybe_date_or_string. cbn [to_datetime].
  rewrite H. vm_compute. reflexivity.
Qed.

(** C7 (amended): a row passes the filters iff, for every column with a
    non-empty selection, the [str] of its cell is selected; a column with an
    empty selection constrains nothing. On a period column, filtered through
    its [_fmt] column, the rows kept are those whose converted cell (its
    label, or "None" when the converter gives [None]) is selected. When a
    cell of the source column holds the text "None", the option "None" is
    offered, and selecting it keeps every row whose period is unresolved. *)
Theorem aplica_filtros_spec (parse_str : text -> option (Z * Z))
  (parse_num : Z -> option (Z * Z))
  (Hs : forall s y m, parse_str s = Some (y, m) -> 1677 <= y <= 2262 /\ 1 <= m <= 12)
  (Hn : forall n y m, parse_num n = Some (y, m) -> 1677 <= y <= 2262 /\ 1 <= m <= 12)
  (Hnone : parse_str (u "None") = None) :
  (forall filtros df,
     aplica_filtros filtros df =
     filter (fun r => forallb (fun f => match snd f with
                                        | [] => true
                                        | _ :: _ => isin (r (fst f)) (snd f)
                                        end) filtros) df)
  /\ (forall fmt_key src valores rows,
        aplica_filtros [(fmt_key, valores)]
          (map (add_fmt_column parse_str parse_num fmt_key src) rows) =
        map (add_fmt_column parse_str parse_num fmt_key src)
          (filter (fun r => match valores with
                            | [] => true
                            | _ :: _ =>
                                existsb (teqb (match _format_period_from_maybe_date_or_string
                                                       parse_str parse_num (r src) with
                                               | Some l => l
                                               | None => u "None"
                                               end)) valores
                            end) rows))
  /\ (forall vs, Forall wf_value vs -> In (VStr (u "None")) vs ->
        exists opts, _period_options_ordered_from_series parse_str parse_num vs = Some opts
                     /\ In (u "None") opts)
  /\ (forall fmt_key src valores rows r,
        In (u "None") valores -> In r rows ->
        _format_period_from_maybe_date_or_string parse_str parse_num (r src) = None ->
        In (add_fmt_column parse_str parse_num fmt_key src r)
           (aplica_filtros [(fmt_key, valores)]
              (map (add_fmt_column parse_str parse_num fmt_key src) rows))).
Proof.
  split; [exact aplica_filtros_filter|].
  split; [exact (aplica_filtros_fmt parse_str parse_num)|].
  split.
  - intros vs Hwf Hin.
    destruct (options_shape parse_str parse_num Hs Hn vs Hwf)
      as (K & U & Hopt & _ & _ & _ & _ & HU & _).
    exists (map label_of K ++ U). split; [exact Hopt|].
    apply in_or_app. right. apply HU. exists (VStr (u "None")).
    split; [exact Hin|]. split; [exact (format_text_None parse_str parse_num Hnone)|].
    split; [reflexivity|]. split; [vm_compute; reflexivity|]. reflexivity.
  - intros fmt_key src valores rows r Hv Hr Hf.
    rewrite aplica_filtros_fmt. apply in_map. apply filter_In. split; [exact Hr|].
    rewrite Hf. destruct valores as [|v vs]; [destruct Hv|].
    apply existsb_exists. exists (u "None"). split; [exact Hv | apply teqb_refl].
Qed.

Lemma aplica_filtros_spec_witness :
  (forall s y m, iso_parse s = Some (y, m) -> 1677 <= y <= 2262 /\ 1 <= m <= 12) /\
  (forall n y m, no_num n = Some (y, m) -> 1677 <= y <= 2262 /\ 1 <= m <= 12) /\
  iso_parse (u "None") = None /\
  In (VStr (u "None")) [VStr (u "2025-09"); VStr (u "None"); VNone] /\
  exists opts, _period_options_ordered_from_series iso_parse no_num
                 [VStr (u "2025-09"); VStr (u "None"); VNone] = Some opts
               /\ In (u "None") opts.
Proof.
  assert (Hnone : iso_parse (u "None") = None) by (vm_compute; reflexivity).
  split; [exact iso_parse_range|]. split; [exact no_num_range|]. split; [exact Hnone|].
  split; [simpl; tauto|].
  apply (aplica_filtros_spec iso_parse no_num iso_parse_range no_num_range Hnone);
    [repeat constructor | simpl; tauto].
Defined.


(** ** Text functions: [_normalize], [str.strip], [str.lower] *)

Lemma brute2 (P : Z -> Z -> bool) lo1 n1 lo2 n2 :
  forallb (fun y => forallb (P y) (Z_interval lo2 n2)) (Z_interval lo1 n1) = true ->
  forall y m, lo1 <= y < lo1 + n1 -> lo2 <= m < lo2 + n2 -> P y m = true.
Proof.
  intros H y m Hy Hm.
  apply (Z_interval_forall (P y) lo2 n2); [|exact Hm].
  exact (Z_interval_forall (fun y => forallb (P y) (Z_interval lo2 n2)) lo1 n1 H y Hy).
Qed.

Lemma normalize_app a b : _normalize (a ++ b) = _normalize a ++ _normalize b.
Proof.
  unfold _normalize, drop_mn, nfkd, py_lower.
  rewrite flat_map_app, !filter_app, map_app, filter_app. reflexivity.
Qed.

Lemma normalize_cons c s : _normalize (c :: s) = _normalize [c] ++ _normalize s.
Proof. exact (normalize_app [c] s). Qed.

Lemma assoc_Z_none {A} k (l : list (Z * A)) :
  forallb (fun p => negb (Z.eqb k (fst p))) l = true -> assoc_Z k l = None.
Proof.
  induction l as [|[k' v] l IH]; simpl; [reflexivity|].
  intro H. apply andb_prop in H as [H1 H2]. destruct (Z.eqb k k'); [discriminate|].
  exact (IH H2).
Qed.

Lemma nfkd_cp_high c : 255 < c -> nfkd_cp c = [c].
Proof.
  intro Hc. unfold nfkd_cp. rewrite assoc_Z_none; [reflexivity|].
  assert (Hk : forallb (fun p => fst p <=? 255) nfkd_table = true) by (vm_compute; reflexivity).
  rewrite forallb_forall in Hk |- *. intros p Hp. specialize (Hk p Hp).
  apply Z.leb_le in Hk. destruct (Z.eqb_spec c (fst p)); [lia | reflexivity].
Qed.

Lemma py_lower_cp_out c : c < 0 \/ 255 < c -> py_lower_cp c = c.
Proof.
  intro Hc. unfold py_lower_cp, in_range.
  destruct (Z.leb_spec 65 c), (Z.leb_spec c 90), (Z.leb_spec 192 c), (Z.leb_spec c 222);
    simpl; try reflexivity; lia.
Qed.

Lemma normalize_high c : 255 < c -> _normalize [c] = [].
Proof.
  intro Hc. unfold _normalize, nfkd. simpl. rewrite nfkd_cp_high by lia. simpl.
  destruct (is_mn c); simpl; [reflexivity|].
  rewrite py_lower_cp_out by lia. simpl.
  unfold is_az09, is_digit, in_range.
  destruct (Z.leb_spec 97 c), (Z.leb_spec c 122), (Z.leb_spec 48 c), (Z.leb_spec c 57);
    simpl; try reflexivity; lia.
Qed.

Lemma normalize_lower_cp c : _normalize [py_lower_cp c] = _normalize [c].
Proof.
  destruct (Z_lt_le_dec c 0) as [Hc|Hc]; [rewrite py_lower_cp_out by lia; reflexivity|].
  destruct (Z_lt_le_dec 255 c) as [Hc'|Hc']; [rewrite py_lower_cp_out by lia; reflexivity|].
  apply teqb_true.
  refine (Z_interval_forall (fun c => teqb (_normalize [py_lower_cp c]) (_normalize [c]))
            0 256 _ c _); [vm_compute; reflexivity | lia].
Qed.

Lemma normalize_py_lower s : _normalize (py_lower s) = _normalize s.
Proof.
  induction s as [|c s IH]; [reflexivity|].
  change (py_lower (c :: s)) with (py_lower_cp c :: py_lower s).
  rewrite normalize_cons, (normalize_cons c s), IH, normalize_lower_cp. reflexivity.
Qed.

Lemma normalize_space c : py_isspace c = true -> _normalize [c] = [].
Proof.
  intro H. destruct (Z_lt_le_dec 255 c) as [Hc|Hc]; [exact (normalize_high c Hc)|].
  assert (Hn : 0 <= c).
  { unfold py_isspace, in_range in H.
    rewrite !orb_true_iff, !andb_true_iff, !Z.leb_le, !Z.eqb_eq in H. lia. }
  assert (Hb : forallb (fun c => negb (py_isspace c) || teqb (_normalize [c]) [])
                 (Z_interval 0 256) = true) by (vm_compute; reflexivity).
  pose proof (Z_interval_forall _ 0 256 Hb c ltac:(lia)) as Hc'. cbv beta in Hc'.
  rewrite H in Hc'. simpl in Hc'. exact (teqb_true _ _ Hc').
Qed.

Lemma normalize_spaces l : Forall (fun c => py_isspace c = true) l -> _normalize l = [].
Proof.
  induction 1 as [|c l Hc _ IH]; [reflexivity|].
  rewrite normalize_cons, normalize_space, IH by exact Hc. reflexivity.
Qed.

Lemma normalize_az09 l : forallb is_az09 l = true -> _normalize l = l.
Proof.
  induction l as [|c l IH]; [reflexivity|]. simpl. intro H.
  apply andb_prop in H as [Hc Hl]. rewrite normalize_cons, IH by exact Hl.
  assert (Hr : 48 <= c <= 122).
  { unfold is_az09, is_digit, in_range in Hc.
    destruct (Z.leb_spec 97 c), (Z.leb_spec c 122), (Z.leb_spec 48 c), (Z.leb_spec c 57);
      simpl in Hc; try discriminate; lia. }
  assert (Hb : forallb (fun c => negb (is_az09 c) || teqb (_normalize [c]) [c])
                 (Z_interval 48 75) = true) by (vm_compute; reflexivity).
  pose proof (Z_interval_forall _ 48 75 Hb c ltac:(lia)) as Hc'. cbv beta in Hc'.
  rewrite Hc in Hc'. simpl in Hc'. rewrite (teqb_true _ _ Hc'). reflexivity.
Qed.

Lemma lstrip_split s :
  exists pre, s = pre ++ lstrip s /\ Forall (fun c => py_isspace c = true) pre.
Proof.
  induction s as [|c s IH]; simpl; [exists []; auto|].
  destruct (py_isspace c) eqn:E.
  - destruct IH as (pre & Hs & Hp). exists (c :: pre). split; [simpl; congruence | auto].
  - exists []. auto.
Qed.

Lemma py_strip_split s :
  exists pre post, s = pre ++ py_strip s ++ post
    /\ Forall (fun c => py_isspace c = true) pre
    /\ Forall (fun c => py_isspace c = true) post.
Proof.
  destruct (lstrip_split s) as (pre & E1 & H1).
  destruct (lstrip_split (rev (lstrip s))) as (pre2 & E2 & H2).
  exists pre, (rev pre2). split; [|split; [exact H1 | apply Forall_rev; exact H2]].
  unfold py_strip.
  rewrite E1 at 1. f_equal.
  apply (f_equal (@rev Z)) in E2. rewrite rev_involutive, rev_app_distr in E2. exact E2.
Qed.

Lemma normalize_py_strip s : _normalize (py_strip s) = _normalize s.
Proof.
  destruct (py_strip_split s) as (pre & post & E & H1 & H2).
  rewrite E at 2. rewrite !normalize_app, (normalize_spaces pre H1), (normalize_spaces post H2).
  rewrite app_nil_r. reflexivity.
Qed.

Lemma lstrip_spaces pre s :
  Forall (fun c => py_isspace c = true) pre -> lstrip (pre ++ s) = lstrip s.
Proof. induction 1 as [|c l Hc _ IH]; simpl; [reflexivity|]. rewrite Hc. exact IH. Qed.

Lemma lstrip_app_nonempty s t : lstrip s <> [] -> lstrip (s ++ t) = lstrip s ++ t.
Proof.
  induction s as [|c s IH]; simpl; [intro H; congruence|].
  destruct (py_isspace c); [exact IH | reflexivity].
Qed.

Lemma lstrip_all_spaces s : lstrip s = [] -> Forall (fun c => py_isspace c = true) s.
Proof.
  induction s as [|c s IH]; simpl; [constructor|].
  destruct (py_isspace c) eqn:E; [intro H; constructor; auto | discriminate].
Qed.

Lemma py_strip_pad pre s post :
  Forall (fun c => py_isspace c = true) pre -> Forall (fun c => py_isspace c = true) post ->
  py_strip (pre ++ s ++ post) = py_strip s.
Proof.
  intros H1 H2. unfold py_strip. rewrite lstrip_spaces by exact H1.
  destruct (lstrip s) eqn:E.
  - apply lstrip_all_spaces in E.
    rewrite (lstrip_spaces s post E), <- (app_nil_r post), (lstrip_spaces post [] H2).
    reflexivity.
  - rewrite lstrip_app_nonempty by (rewrite E; discriminate). rewrite E.
    rewrite rev_app_distr, lstrip_spaces by (apply Forall_rev; exact H2). reflexivity.
Qed.


Lemma lower_cp_facts c :
  py_lower_cp (py_lower_cp c) = py_lower_cp c /\ py_isspace (py_lower_cp c) = py_isspace c.
Proof.
  destruct (Z_lt_le_dec c 0) as [Hc|Hc]; [rewrite !(py_lower_cp_out c) by lia; auto|].
  destruct (Z_lt_le_dec 255 c) as [Hc'|Hc']; [rewrite !(py_lower_cp_out c) by lia; auto|].
  assert (Hb : forallb (fun c => Z.eqb (py_lower_cp (py_lower_cp c)) (py_lower_cp c)
                                 && Bool.eqb (py_isspace (py_lower_cp c)) (py_isspace c))
                 (Z_interval 0 256) = true) by (vm_compute; reflexivity).
  pose proof (Z_interval_forall _ 0 256 Hb c ltac:(lia)) as H. cbv beta in H.
  apply andb_prop in H as [H1 H2]. split; [apply Z.eqb_eq | apply Bool.eqb_prop]; assumption.
Qed.

Lemma py_lower_idem s : py_lower (py_lower s) = py_lower s.
Proof.
  unfold py_lower. rewrite map_map. apply map_ext. intro c. apply lower_cp_facts.
Qed.

Lemma lstrip_lower s : lstrip (py_lower s) = py_lower (lstrip s).
Proof.
  induction s as [|c s IH]; [reflexivity|].
  change (py_lower (c :: s)) with (py_lower_cp c :: py_lower s). simpl.
  rewrite (proj2 (lower_cp_facts c)). destruct (py_isspace c); [exact IH | reflexivity].
Qed.

Lemma py_strip_lower s : py_strip (py_lower s) = py_lower (py_strip s).
Proof.
  unfold py_strip, py_lower. rewrite lstrip_lower. unfold py_lower.
  rewrite <- map_rev, lstrip_lower. unfold py_lower. rewrite map_rev. reflexivity.
Qed.

Lemma in_py_strip x s : In x (py_strip s) -> In x s.
Proof.
  intro H. destruct (py_strip_split s) as (pre & post & E & _ & _).
  rewrite E. apply in_or_app. right. apply in_or_app. left. exact H.
Qed.

Lemma extract_congr s t :
  py_lower (py_strip s) = py_lower (py_strip t) ->
  _extract_year_month_from_string s = _extract_year_month_from_string t.
Proof. intro H. unfold _extract_year_month_from_string. rewrite H. reflexivity. Qed.

Lemma search_year4_nodigit s :
  forallb (fun c => negb (is_digit c)) s = true -> search_year4 s = None.
Proof.
  induction s as [|a s IH]; intro H; [reflexivity|].
  simpl in H. apply andb_prop in H as [Ha Hs].
  destruct s as [|b [|c [|d t]]]; try reflexivity.
  rewrite search_year4_cons.
  destruct (Z.eqb_spec a 50) as [->|]; [discriminate|]. simpl. exact (IH Hs).
Qed.

Lemma search_trailing2_nodigit s :
  forallb (fun c => negb (is_digit c)) s = true -> search_trailing2 s = None.
Proof.
  intro H. rewrite forallb_forall in H.
  assert (Hd : forall x, In x (rev s) -> is_digit x = false).
  { intros x Hx. apply in_rev in Hx. specialize (H x Hx). destruct (is_digit x); auto. }
  unfold search_trailing2.
  destruct (rev s) as [|x [|lo [|hi r]]]; try reflexivity.
  - rewrite (Hd lo) by (simpl; auto). reflexivity.
  - rewrite (Hd lo) by (simpl; auto). rewrite (Hd hi) by (simpl; auto).
    destruct (Z.eqb x 10); reflexivity.
Qed.


Lemma brute3 (P : Z -> Z -> Z -> bool) lo1 n1 lo2 n2 lo3 n3 :
  forallb (fun a => forallb (fun b => forallb (P a b) (Z_interval lo3 n3))
                          (Z_interval lo2 n2)) (Z_interval lo1 n1) = true ->
  forall a b c, lo1 <= a < lo1 + n1 -> lo2 <= b < lo2 + n2 -> lo3 <= c < lo3 + n3 ->
  P a b c = true.
Proof.
  intros H a b c Ha Hb Hc.
  apply (brute2 (P a) lo2 n2 lo3 n3); [|exact Hb|exact Hc].
  exact (Z_interval_forall _ lo1 n1 H a Ha).
Qed.

Lemma pair_of_checks (r : option Z * option Z) a b :
  oz_eqb (fst r) a && oz_eqb (snd r) b = true -> r = (a, b).
Proof.
  destruct r as [x z]. simpl. intro H. apply andb_prop in H as [H1 H2].
  apply oz_eqb_true in H1, H2. subst. reflexivity.
Qed.


Lemma dmy_all : forallb (fun a => forallb (fun b => forallb (dmy_check a b) (Z_interval 1 12))
                          (Z_interval 1 31)) (Z_interval 2000 100) = true.
Proof. vm_compute. reflexivity. Qed.

Lemma nfkd_lower_no_digit : forallb (fun c =>
    implb (negb (is_digit c) && negb (existsb (Z.eqb c) [0xB2; 0xB3; 0xB9; 0xBC; 0xBD; 0xBE]))
          (forallb (fun x => negb (is_digit x)) (nfkd_cp (py_lower_cp c))))
  (Z_interval 0 256) = true.
Proof. vm_compute. reflexivity. Qed.

(** X6: the extractor only looks at the stripped, lowercased text, so
    surrounding white space and the letter case of Latin-1 text do not
    change its result. *)
Theorem extract_case_space_invariant pre s post :
  latin1 s = true ->
  Forall (fun c => py_isspace c = true) pre ->
  Forall (fun c => py_isspace c = true) post ->
  _extract_year_month_from_string (pre ++ py_lower s ++ post) =
  _extract_year_month_from_string s.
Proof.
  intros _ Hpre Hpost. apply extract_congr.
  rewrite py_strip_pad by assumption.
  rewrite py_strip_lower, py_lower_idem. reflexivity.
Qed.

(** X7: a Latin-1 text without an ASCII digit and without any of the
    characters ² ³ ¹ ¼ ½ ¾ (whose compatibility forms are digits) yields no
    year. *)
Theorem extract_no_digit_no_year s :
  Forall (fun c => 0 <= c <= 255 /\ is_digit c = false /\
                   ~ In c [0xB2; 0xB3; 0xB9; 0xBC; 0xBD; 0xBE]) s ->
  fst (_extract_year_month_from_string s) = None.
Proof.
  intro Hs. rewrite Forall_forall in Hs.
  assert (Hnd : forallb (fun c => negb (is_digit c))
                  (filter keep_raw (drop_mn (nfkd (py_lower (py_strip s))))) = true).
  { apply forallb_forall. intros x Hx.
    apply filter_In in Hx as [Hx _]. unfold drop_mn in Hx.
    apply filter_In in Hx as [Hx _]. unfold nfkd in Hx.
    apply in_flat_map in Hx as (c & Hc & Hx). unfold py_lower in Hc.
    apply in_map_iff in Hc as (c0 & <- & Hc0). apply in_py_strip in Hc0.
    destruct (Hs c0 Hc0) as (Hr & Hd & Hsup).
    pose proof (Z_interval_forall _ 0 256 nfkd_lower_no_digit c0 ltac:(lia)) as H.
    cbv beta in H. rewrite Hd in H.
    assert (Hex : existsb (Z.eqb c0) [0xB2; 0xB3; 0xB9; 0xBC; 0xBD; 0xBE] = false).
    { destruct (existsb _ _) eqn:E; [|reflexivity].
      apply existsb_exists in E as (z & Hz & Ez). apply Z.eqb_eq in Ez. subst z.
      contradiction. }
    rewrite Hex in H. simpl in H. rewrite forallb_forall in H. exact (H x Hx). }
  unfold _extract_year_month_from_string. cbv zeta.
  destruct (py_lower (py_strip s)) as [|z l]; [reflexivity|].
  rewrite (search_year4_nodigit _ Hnd), (search_trailing2_nodigit _ Hnd). reflexivity.
Qed.

(** X8: a month number read by the extractor is always between 1 and 12. *)
Theorem extract_month_in_range s m :
  snd (_extract_year_month_from_string s) = Some m -> 1 <= m <= 12.
Proof. apply extract_month_range. Qed.

(** X9: an ISO year-month "YYYY-MM" with a year of the 2000s is read
    back as that year and month. *)
Theorem extract_iso_year_month y m :
  2000 <= y <= 2099 -> 1 <= m <= 12 ->
  _extract_year_month_from_string (py_str_Z y ++ u "-" ++ two_digits m) = (Some y, Some m).
Proof.
  intros Hy Hm. apply pair_of_checks.
  refine (brute2 (fun y m => let r := _extract_year_month_from_string
                                        (py_str_Z y ++ u "-" ++ two_digits m) in
                             oz_eqb (fst r) (Some y) && oz_eqb (snd r) (Some m))
                 2000 100 1 12 _ y m ltac:(lia) ltac:(lia)).
  vm_compute. reflexivity.
Qed.

(** X10: "MM/YYYY" with a year of the 2000s is read back as that month
    and year. *)
Theorem extract_month_slash_year y m :
  2000 <= y <= 2099 -> 1 <= m <= 12 ->
  _extract_year_month_from_string (two_digits m ++ u "/" ++ py_str_Z y) = (Some y, Some m).
Proof.
  intros Hy Hm. apply pair_of_checks.
  refine (brute2 (fun y m => let r := _extract_year_month_from_string
                                        (two_digits m ++ u "/" ++ py_str_Z y) in
                             oz_eqb (fst r) (Some y) && oz_eqb (snd r) (Some m))
                 2000 100 1 12 _ y m ltac:(lia) ltac:(lia)).
  vm_compute. reflexivity.
Qed.

(** X11: a Portuguese month name followed by "/" and a four-digit year
    of the 2000s gives that month and year; with a two-digit year YY the
    year is 2000 + YY. *)
Theorem extract_month_name_year m y :
  1 <= m <= 12 -> 0 <= y <= 99 ->
  _extract_year_month_from_string
    (nth (Z.to_nat (m - 1)) nomes_meses [] ++ u "/" ++ py_str_Z (2000 + y)) =
    (Some (2000 + y), Some m) /\
  _extract_year_month_from_string
    (nth (Z.to_nat (m - 1)) nomes_meses [] ++ u "/" ++ two_digits y) =
    (Some (2000 + y), Some m).
Proof.
  intros Hm Hy. split; apply pair_of_checks.
  - refine (brute2 (fun m y => let r := _extract_year_month_from_string
               (nth (Z.to_nat (m - 1)) nomes_meses [] ++ u "/" ++ py_str_Z (2000 + y)) in
             oz_eqb (fst r) (Some (2000 + y)) && oz_eqb (snd r) (Some m))
             1 12 0 100 _ m y ltac:(lia) ltac:(lia)).
    vm_compute. reflexivity.
  - refine (brute2 (fun m y => let r := _extract_year_month_from_string
               (nth (Z.to_nat (m - 1)) nomes_meses [] ++ u "/" ++ two_digits y) in
             oz_eqb (fst r) (Some (2000 + y)) && oz_eqb (snd r) (Some m))
             1 12 0 100 _ m y ltac:(lia) ltac:(lia)).
    vm_compute. reflexivity.
Qed.

(** X12: a day-first date "DD/MM/YYYY" of the 2000s gives the year, but
    its month is the day DD whenever DD is at most 12, and MM only for
    days 13 to 31. *)
Theorem extract_day_first_date y d m :
  2000 <= y <= 2099 -> 1 <= d <= 31 -> 1 <= m <= 12 ->
  _extract_year_month_from_string
    (two_digits d ++ u "/" ++ two_digits m ++ u "/" ++ py_str_Z y) =
    (Some y, Some (if d <=? 12 then d else m)).
Proof.
  intros Hy Hd Hm. apply pair_of_checks.
  exact (brute3 dmy_check 2000 100 1 31 1 12 dmy_all y d m
           ltac:(lia) ltac:(lia) ltac:(lia)).
Qed.


(** ** The detector's choices *)

Lemma detect_split (cols : list text) :
  _detect_period_columns cols =
  (role_choice exact_nd keyword_nd fallback_nd cols,
   role_choice exact_aloc keyword_aloc fallback_aloc cols,
   role_choice exact_fech keyword_fech fallback_fech cols).
Proof.
  unfold _detect_period_columns. rewrite first_pass_split. cbv beta iota zeta.
  rewrite !role_final; [reflexivity | empty_name | empty_name | empty_name].
Qed.

Lemma first_col_in p cols c : first_col p cols = Some c -> In c cols.
Proof.
  induction cols as [|c' cs IH]; simpl; [discriminate|].
  destruct (p c'); [intro H; apply Some_inj in H; subst; left; reflexivity|].
  intro H. right. exact (IH H).
Qed.

Lemma last_col_in p cols c : last_col p cols = Some c -> In c cols.
Proof.
  induction cols as [|c' cs IH]; simpl; [discriminate|].
  destruct (last_col p cs); [intro H; right; exact (IH H)|].
  destruct (p c'); [intro H; apply Some_inj in H; subst; left; reflexivity | discriminate].
Qed.

Lemma role_choice_in ex kw fb cols c :
  role_choice ex kw fb cols = Some c -> In c cols /\ (ex c || kw c || fb c = true).
Proof.
  unfold role_choice. destruct (last_col ex cols) eqn:E.
  - intro H. apply Some_inj in H. subst.
    split; [exact (last_col_in _ _ _ E)|]. rewrite (last_col_sat _ _ _ E). reflexivity.
  - destruct (first_col kw cols) eqn:E2.
    + intro H. apply Some_inj in H. subst.
      split; [exact (first_col_in _ _ _ E2)|].
      rewrite (first_col_sat _ _ _ E2), orb_true_r. reflexivity.
    + intro H. split; [exact (first_col_in _ _ _ H)|].
      rewrite (first_col_sat _ _ _ H), !orb_true_r. reflexivity.
Qed.

Lemma normalize_lower_strip c : _normalize (py_lower (py_strip c)) = _normalize c.
Proof. rewrite normalize_py_lower, normalize_py_strip. reflexivity. Qed.

(** X5: every column the detector returns is one of the input columns,
    and the column chosen for the ND period has a normalized name that
    contains both "periodo" and "nd". *)
Theorem detect_roles_are_columns cols :
  let '(nd, aloc, fech) := _detect_period_columns cols in
  (forall c, nd = Some c ->
     In c cols /\ contains (u "periodo") (_normalize c) && contains (u "nd") (_normalize c) = true) /\
  (forall c, aloc = Some c -> In c cols) /\
  (forall c, fech = Some c -> In c cols).
Proof.
  rewrite detect_split. split; [|split]; intros c Hc;
    destruct (role_choice_in _ _ _ _ _ Hc) as [Hin Hsat]; try exact Hin.
  split; [exact Hin|].
  unfold exact_nd, keyword_nd, fallback_nd, all_in in Hsat. cbv zeta in Hsat.
  destruct (teqb (py_lower (py_strip c)) periodo_nd_acc) eqn:E1.
  { apply teqb_true in E1. rewrite <- normalize_lower_strip, E1. vm_compute. reflexivity. }
  destruct (teqb (py_lower (py_strip c)) (u "periodo nd")) eqn:E2.
  { apply teqb_true in E2. rewrite <- normalize_lower_strip, E2. vm_compute. reflexivity. }
  change (forallb (fun k => contains k (_normalize c)) _KEYWORDS_ND) with
    (contains (u "periodo") (_normalize c) && (contains (u "nd") (_normalize c) && true)) in Hsat.
  destruct (contains (u "periodo") (_normalize c)), (contains (u "nd") (_normalize c));
    simpl in Hsat; first [reflexivity | discriminate].
Qed.


(** ** Properties of [_normalize] *)

(** X1: [_normalize] ignores letter case: on Latin-1 text, lowercasing
    first does not change its result. *)
Theorem normalize_case_insensitive s :
  latin1 s = true -> _normalize (py_lower s) = _normalize s.
Proof. intros _. apply normalize_py_lower. Qed.

Lemma decomposed_same_base :
  forallb (fun c => match assoc_Z c nfkd_table with
                    | Some [b; mk] => implb (is_mn mk) (teqb (_normalize [c]) (_normalize [b]))
                    | _ => true
                    end)
          (Z_interval 0 256) = true.
Proof. vm_compute. reflexivity. Qed.

(** X2: [_normalize] ignores accents: a Latin-1 character whose NFKD
    decomposition is a base character followed by one combining mark (every
    accented letter, capital or small, "ÿ" included) can be replaced by
    that base character anywhere in a Latin-1 text without changing the
    result. *)
Theorem normalize_accent_insensitive c b mk s1 s2 :
  0 <= c <= 255 -> assoc_Z c nfkd_table = Some [b; mk] -> is_mn mk = true ->
  latin1 s1 = true -> latin1 s2 = true ->
  _normalize (s1 ++ c :: s2) = _normalize (s1 ++ b :: s2).
Proof.
  intros Hc Hd Hmk _ _.
  pose proof (Z_interval_forall _ 0 256 decomposed_same_base c ltac:(lia)) as H.
  cbv beta in H. rewrite Hd, Hmk in H. cbn [implb] in H. apply teqb_true in H.
  rewrite !normalize_app, (normalize_cons c s2), (normalize_cons b s2), H.
  reflexivity.
Qed.

Lemma normalize_dropped_chars :
  forallb (fun c => implb (negb (is_az09 (py_lower_cp c)) &&
                           match assoc_Z c nfkd_table with None => true | _ => false end)
                          (teqb (_normalize [c]) []))
          (Z_interval 0 256) = true.
Proof. vm_compute. reflexivity. Qed.

(** X3: a Latin-1 character that is neither an ASCII letter or digit nor
    one with a compatibility decomposition (blanks, punctuation, "_", "-",
    "/", "ß", "Æ", "Ø", ...) can be inserted anywhere in a Latin-1 text
    without changing [_normalize]. *)
Theorem normalize_ignores_symbols c s1 s2 :
  0 <= c <= 255 -> is_az09 (py_lower_cp c) = false -> assoc_Z c nfkd_table = None ->
  latin1 s1 = true -> latin1 s2 = true ->
  _normalize (s1 ++ c :: s2) = _normalize (s1 ++ s2).
Proof.
  intros Hc Ha Hn _ _.
  pose proof (Z_interval_forall _ 0 256 normalize_dropped_chars c ltac:(lia)) as H.
  cbv beta in H. rewrite Ha, Hn in H. cbn [negb andb implb] in H. apply teqb_true in H.
  rewrite !normalize_app, normalize_cons, H. reflexivity.
Qed.

(** X4: the result of [_normalize] holds only a-z and 0-9, and
    normalizing it again changes nothing. *)
Theorem normalize_output_idempotent s :
  forallb is_az09 (_normalize s) = true /\ _normalize (_normalize s) = _normalize s.
Proof.
  assert (H : forallb is_az09 (_normalize s) = true).
  { unfold _normalize. apply forallb_forall. intros x Hx. apply filter_In in Hx. apply Hx. }
  split; [exact H | exact (normalize_az09 _ H)].
Qed.


(** ** Filters, metrics and the converter on its own labels *)

Lemma aplica_filtros_as_filter filtros df :
  aplica_filtros filtros df =
  filter (fun r => forallb (fun f => match snd f with
                                     | [] => true
                                     | _ :: _ => isin (r (fst f)) (snd f)
                                     end) filtros) df.
Proof.
  revert df. induction filtros as [|[k vs] fs IH]; intro df; simpl.
  - induction df as [|r df IHdf]; simpl; [reflexivity|]. rewrite <- IHdf. reflexivity.
  - rewrite IH. destruct vs as [|v vs]; simpl; [reflexivity|].
    rewrite filter_filter_andb. reflexivity.
Qed.

Lemma forallb_perm {A} (f : A -> bool) l1 l2 :
  Permutation l1 l2 -> forallb f l1 = forallb f l2.
Proof.
  induction 1 as [| x l1 l2 _ IH | x y l | l1 l2 l3 _ IH1 _ IH2]; simpl.
  - reflexivity.
  - rewrite IH. reflexivity.
  - rewrite !andb_assoc, (andb_comm (f y)). reflexivity.
  - congruence.
Qed.

Lemma filter_idem {A} (f : A -> bool) l : filter f (filter f l) = filter f l.
Proof.
  rewrite filter_filter_andb. apply filter_ext. intro x. apply andb_diag.
Qed.

(** X15: the order in which the page applies the selected filters does
    not matter: any reordering of the filter list gives the same rows. *)
Theorem aplica_filtros_order_irrelevant filtros1 filtros2 df :
  Permutation filtros1 filtros2 ->
  aplica_filtros filtros1 df = aplica_filtros filtros2 df.
Proof.
  intro Hp. rewrite !aplica_filtros_as_filter. apply filter_ext. intro r.
  apply forallb_perm. exact Hp.
Qed.

(** X16: filtering is idempotent: applying the same selections to rows
    that already passed them removes nothing more. *)
Theorem aplica_filtros_idempotent filtros df :
  aplica_filtros filtros (aplica_filtros filtros df) = aplica_filtros filtros df.
Proof. rewrite !aplica_filtros_as_filter. apply filter_idem. Qed.

Lemma py_str_Z_sign n :
  py_str_Z n = (if n <? 0 then [45] else []) ++ py_str_Z (Z.abs n).
Proof. destruct n; reflexivity. Qed.

Lemma uint_digits d : forallb is_digit (u (NilEmpty.string_of_uint d)) = true.
Proof. induction d; first [reflexivity | exact IHd]. Qed.

Lemma py_str_Z_digits n : 0 <= n -> forallb is_digit (py_str_Z n) = true.
Proof.
  intro Hn. destruct n as [|p|p]; [reflexivity| |lia].
  exact (uint_digits (Pos.to_uint p)).
Qed.

Lemma py_replace1_single old n s :
  py_replace1 old [n] s = map (fun c => if Z.eqb c old then n else c) s.
Proof.
  induction s as [|c s IH]; [reflexivity|]. simpl. rewrite IH.
  destruct (Z.eqb c old); reflexivity.
Qed.

Lemma filter_rev' {A} (f : A -> bool) l : filter f (rev l) = rev (filter f l).
Proof.
  induction l as [|x l IH]; simpl; [reflexivity|].
  rewrite filter_app, IH. simpl. destruct (f x); simpl; [reflexivity|apply app_nil_r].
Qed.

Lemma group3_filter (f : Z -> bool) l :
  f 44 = false -> filter f (group3 l) = filter f l.
Proof.
  intro H44. remember (List.length l) as n eqn:E.
  revert l E. induction n as [n IH] using lt_wf_ind. intros l E.
  destruct l as [|a [|b [|c [|d r]]]]; try reflexivity.
  change (group3 (a :: b :: c :: d :: r)) with (a :: b :: c :: 44 :: group3 (d :: r)).
  cbn [filter]. rewrite H44. rewrite (IH (List.length (d :: r))) by (simpl in *; lia).
  cbn [filter]. reflexivity.
Qed.

Lemma filter_digits (f : Z -> bool) l :
  (forall c, is_digit c = true -> f c = true) -> forallb is_digit l = true -> filter f l = l.
Proof.
  intros Hf. induction l as [|c l IH]; simpl; [reflexivity|].
  intro H. apply andb_prop in H as [Hc Hl]. rewrite (Hf c Hc), (IH Hl). reflexivity.
Qed.

(** X17: the "Horas" metric text, with the thousands dots removed, is
    [str] of the total: the formatting only inserts "." between groups of
    digits. *)
Theorem horas_metric_digits total_horas :
  filter (fun c => negb (Z.eqb c 46)) (horas_metric total_horas) = py_str_Z total_horas.
Proof.
  unfold horas_metric, py_format_thousands. rewrite py_replace1_single, (py_str_Z_sign total_horas).
  rewrite map_app, filter_app. f_equal.
  - destruct (total_horas <? 0); reflexivity.
  - rewrite map_rev, filter_rev'.
    set (ds := py_str_Z (Z.abs total_horas)).
    assert (Hd : forallb is_digit ds = true) by (apply py_str_Z_digits; lia).
    assert (Hm : forall l, filter (fun c => negb (Z.eqb c 46))
                             (map (fun c => if Z.eqb c 44 then 46 else c) l) =
                           filter (fun c => negb (Z.eqb c 44) && negb (Z.eqb c 46)) l).
    { induction l as [|c l IH]; simpl; [reflexivity|].
      destruct (Z.eqb_spec c 44) as [->|]; simpl; [exact IH|].
      destruct (Z.eqb c 46); simpl; rewrite IH; reflexivity. }
    rewrite Hm, group3_filter by reflexivity. rewrite filter_rev'.
    rewrite filter_digits; [apply rev_involutive| |exact Hd].
    intros c Hc. unfold is_digit, in_range in Hc.
    apply andb_prop in Hc as [H1 H2]. apply Z.leb_le in H1, H2.
    destruct (Z.eqb_spec c 44), (Z.eqb_spec c 46); simpl; try reflexivity; lia.
Qed.

(** X18: on a text without the letter "v" (such as the output of
    [f"R$ {total:,.2f}"]), the three chained [replace] calls of the money
    format swap "," and "." and change nothing else. *)
Theorem brl_swap_exchanges s :
  ~ In 118 s ->
  brl_swap s = map (fun c => if Z.eqb c 44 then 46 else if Z.eqb c 46 then 44 else c) s.
Proof.
  intro Hv. unfold brl_swap. rewrite !py_replace1_single, !map_map.
  apply map_ext_in. intros c Hc.
  destruct (Z.eqb_spec c 44) as [->|]; [reflexivity|].
  destruct (Z.eqb_spec c 46) as [->|]; [reflexivity|].
  destruct (Z.eqb_spec c 118) as [->|]; [contradiction|].
  destruct (Z.eqb_spec c 46); [contradiction|].
  destruct (Z.eqb_spec c 118); [contradiction|reflexivity].
Qed.

(** X13: a label produced by the converter is turned into itself when it
    is converted again as a string, unless [pd.to_datetime] parses the label
    text itself. *)
Theorem format_label_fixed_point parse_str parse_num
  (Hs : forall s y m, parse_str s = Some (y, m) -> 1677 <= y <= 2262 /\ 1 <= m <= 12)
  (Hn : forall n y m, parse_num n = Some (y, m) -> 1677 <= y <= 2262 /\ 1 <= m <= 12)
  v l :
  wf_value v ->
  _format_period_from_maybe_date_or_string parse_str parse_num v = Some l ->
  parse_str l = None ->
  _format_period_from_maybe_date_or_string parse_str parse_num (VStr l) = Some l.
Proof.
  intros Hw Hf Hp.
  destruct (format_shape parse_str parse_num Hs Hn v l Hw Hf) as (y & m & Hy & Hm & ->).
  unfold _format_period_from_maybe_date_or_string, to_datetime. rewrite Hp.
  rewrite (fmt_label_extract y m Hy Hm). unfold year_month_ok, truthy_int.
  replace (2000 + y mod 100 =? 0) with false
    by (symmetry; apply Z.eqb_neq; pose proof (Z.mod_pos_bound y 100); lia).
  replace (m =? 0) with false by (symmetry; apply Z.eqb_neq; lia).
  cbn [negb andb]. rewrite <- (fmt_label_century y m Hy Hm). reflexivity.
Qed.


(** ** Frames: columns and rows through the steps of [app] *)

Lemma teqb_spec a b : reflect (a = b) (teqb a b).
Proof.
  destruct (teqb a b) eqn:E; constructor; [exact (teqb_true _ _ E)|].
  intros ->. rewrite teqb_refl in E. discriminate.
Qed.

Lemma has_col_In c cols : has_col c cols = true <-> In c cols.
Proof.
  unfold has_col. rewrite existsb_exists. split.
  - intros (x & Hx & E). apply teqb_true in E. subst. exact Hx.
  - intro H. exists c. split; [exact H | apply teqb_refl].
Qed.

Lemma has_col_false c cols : has_col c cols = false <-> ~ In c cols.
Proof.
  rewrite <- has_col_In. destruct (has_col c cols); split; congruence.
Qed.

Lemma set_column_cols c g df x :
  In x (fcols (set_column c g df)) <-> In x (fcols df) \/ x = c.
Proof.
  unfold set_column. simpl. destruct (has_col c (fcols df)) eqn:E.
  - apply has_col_In in E. split; [auto|]. intros [H | ->]; assumption.
  - rewrite in_app_iff. simpl. split; intros [H|H]; auto; destruct H; auto; contradiction.
Qed.

Lemma set_column_nodup c g df :
  NoDup (fcols df) -> NoDup (fcols (set_column c g df)).
Proof.
  intro H. unfold set_column. simpl. destruct (has_col c (fcols df)) eqn:E; [exact H|].
  apply has_col_false in E. apply NoDup_app; [exact H | constructor; [auto|constructor] |].
  intros x Hx Hy. destruct Hy as [<-|[]]. contradiction.
Qed.

Lemma set_column_rows c g df r' :
  In r' (frows (set_column c g df)) -> exists r, In r (frows df) /\ r' = upd r c (g r).
Proof.
  unfold set_column. simpl. intro H. apply in_map_iff in H as (r & <- & Hr).
  exists r. auto.
Qed.

Lemma drop_columns_cols ds df x :
  In x (fcols (drop_columns ds df)) <-> In x (fcols df) /\ ~ In x ds.
Proof.
  unfold drop_columns. simpl. rewrite filter_In, negb_true_iff, has_col_false. reflexivity.
Qed.

Lemma drop_columns_nodup ds df :
  NoDup (fcols df) -> NoDup (fcols (drop_columns ds df)).
Proof. intro H. apply NoDup_filter. exact H. Qed.

Lemma drop_present_cols ds df x :
  In x (fcols (drop_columns (filter (fun c => has_col c (fcols df)) ds) df)) <->
  In x (fcols df) /\ ~ In x ds.
Proof.
  rewrite drop_columns_cols, filter_In, has_col_In. intuition.
Qed.

Lemma upd_same r c v : upd r c v c = v.
Proof. unfold upd. rewrite teqb_refl. reflexivity. Qed.

Lemma upd_other r c v k : k <> c -> upd r c v k = r k.
Proof. intro H. unfold upd. destruct (teqb_spec k c); [contradiction | reflexivity]. Qed.

Lemma remove_first_perm p l : In p l -> Permutation (p :: remove_first p l) l.
Proof.
  induction l as [|c l IH]; simpl; [intros []|]. intro H.
  destruct (teqb_spec c p) as [->|Hne]; [reflexivity|].
  destruct H as [->|H]; [contradiction|].
  eapply perm_trans; [apply perm_swap|]. apply perm_skip. exact (IH H).
Qed.

Lemma preferir_eq cols :
  preferir cols =
  let '(p1, c1) := if has_col col_nd cols then ([col_nd], remove_first col_nd cols)
                   else ([], cols) in
  if has_col col_fech c1 then (p1 ++ [col_fech], remove_first col_fech c1) else (p1, c1).
Proof. unfold preferir. simpl. destruct (has_col col_nd cols); reflexivity. Qed.

Lemma preferir_perm cols : Permutation (fst (preferir cols) ++ snd (preferir cols)) cols.
Proof.
  rewrite preferir_eq.
  assert (Hstep : forall p (pre rest : list text),
             Permutation (pre ++ rest) cols ->
             Permutation (fst (if has_col p rest then (pre ++ [p], remove_first p rest)
                               else (pre, rest)) ++
                          snd (if has_col p rest then (pre ++ [p], remove_first p rest)
                               else (pre, rest))) cols).
  { intros p pre rest H. destruct (has_col p rest) eqn:E; simpl; [|exact H].
    apply has_col_In in E. rewrite <- app_assoc. simpl.
    eapply perm_trans; [|exact H]. apply Permutation_app_head. apply remove_first_perm. exact E. }
  destruct (has_col col_nd cols) eqn:E.
  - apply Hstep. simpl. apply remove_first_perm. apply has_col_In. exact E.
  - apply Hstep. reflexivity.
Qed.

Lemma preferir_head cols :
  In col_nd cols -> exists rest, fst (preferir cols) ++ snd (preferir cols) = col_nd :: rest.
Proof.
  intro H. rewrite preferir_eq. apply has_col_In in H. rewrite H.
  destruct (has_col col_fech (remove_first col_nd cols)); simpl; eauto.
Qed.



Lemma grows_refl c df : grows c df df.
Proof. repeat split; auto. Qed.

Lemma grows_set c g df : grows c df (set_column c g df).
Proof.
  repeat split.
  - intros x H. apply set_column_cols. auto.
  - intros x H. apply set_column_cols in H. exact H.
  - apply set_column_nodup.
Qed.

Section Visual.
Variable ps : text -> option (Z * Z).
Variable pn : Z -> option (Z * Z).

Lemma df_visual_facts nd aloc fech dff :
  let out := fcols (df_visual ps pn (nd, aloc, fech) dff) in
  (forall x, In x out ->
     ((In x (fcols dff) /\ ~ In x colunas_ocultas) \/ x = col_nd \/ x = col_fech) /\
     ends_with (u "_fmt") x = false) /\
  (forall x, In x (fcols dff) -> ~ In x colunas_ocultas -> ends_with (u "_fmt") x = false ->
     In x out) /\
  (NoDup (fcols dff) -> NoDup out) /\
  (In col_nd_fmt (fcols dff) -> exists rest, out = col_nd :: rest) /\
  (In col_fech_fmt (fcols dff) \/ In col_aloc_fmt (fcols dff) -> In col_fech out).
Proof.
  unfold df_visual. cbv zeta.
  set (dv0 := drop_columns _ dff).
  set (dv1 := if has_col col_nd_fmt (fcols dv0) then _ else _).
  set (dv2 := if has_col col_fech_fmt (fcols dv1) then _ else _).
  set (dv3 := drop_columns _ dv2).
  assert (H0 : forall x, In x (fcols dv0) <-> In x (fcols dff) /\ ~ In x colunas_ocultas)
    by apply drop_present_cols.
  assert (G1 : grows col_nd dv0 dv1).
  { unfold dv1. destruct (has_col col_nd_fmt (fcols dv0)); [apply grows_set|].
    destruct (truthy nd && has_col (name_of nd) (fcols dv0)); [apply grows_set|apply grows_refl]. }
  assert (G2 : grows col_fech dv1 dv2).
  { unfold dv2. destruct (has_col col_fech_fmt (fcols dv1)); [apply grows_set|].
    destruct (has_col col_aloc_fmt (fcols dv1)); [apply grows_set|].
    destruct (truthy fech && has_col (name_of fech) (fcols dv1)); [apply grows_set|].
    destruct (truthy aloc && has_col (name_of aloc) (fcols dv1)); [apply grows_set|apply grows_refl]. }
  assert (H3 : forall x, In x (fcols dv3) <-> In x (fcols dv2) /\ ends_with (u "_fmt") x = false).
  { intro x. unfold dv3. rewrite drop_present_cols, filter_In.
    destruct (ends_with (u "_fmt") x); intuition congruence. }
  assert (Hnd1 : In col_nd_fmt (fcols dff) -> In col_nd (fcols dv1)).
  { intro H. unfold dv1.
    replace (has_col col_nd_fmt (fcols dv0)) with true
      by (symmetry; apply has_col_In, H0; split; [exact H | apply has_col_false; reflexivity]).
    apply set_column_cols. auto. }
  assert (Hfe2 : In col_fech_fmt (fcols dff) \/ In col_aloc_fmt (fcols dff) ->
                 In col_fech (fcols dv2)).
  { intro H. destruct G1 as (G1a & _).
    assert (Hin : forall k, In k (fcols dff) -> ~ In k colunas_ocultas -> In k (fcols dv1))
      by (intros k Hk Hh; apply G1a, H0; auto).
    unfold dv2. destruct (has_col col_fech_fmt (fcols dv1)) eqn:E.
    - apply set_column_cols; auto.
    - apply has_col_false in E. destruct H as [H|H].
      + exfalso. apply E, Hin; [exact H | apply has_col_false; reflexivity].
      + replace (has_col col_aloc_fmt (fcols dv1)) with true.
        * apply set_column_cols; auto.
        * symmetry. apply has_col_In, Hin; [exact H | apply has_col_false; reflexivity]. }
  destruct G1 as (G1a & G1b & G1c). destruct G2 as (G2a & G2b & G2c).
  pose proof (preferir_perm (fcols dv3)) as Hp. pose proof (preferir_head (fcols dv3)) as Hh.
  destruct (preferir (fcols dv3)) as [pre rest] eqn:Ep. simpl in Hp, Hh |- *.
  assert (Hout : forall x, In x (pre ++ rest) <-> In x (fcols dv3)).
  { intro x. split; apply Permutation_in; [exact Hp | symmetry; exact Hp]. }
  split; [|split; [|split; [|split]]].
  - intros x Hx. apply Hout in Hx. apply H3 in Hx as [Hx Hf]. split; [|exact Hf].
    destruct (G2b x Hx) as [Hx1| ->]; [|auto].
    destruct (G1b x Hx1) as [Hx0| ->]; [|auto].
    left. apply H0. exact Hx0.
  - intros x Hx Hh' Hf. apply Hout, H3. split; [|exact Hf].
    apply G2a, G1a, H0. auto.
  - intro Hnd. apply (Permutation_NoDup (Permutation_sym Hp)).
    apply NoDup_filter, G2c, G1c, NoDup_filter, Hnd.
  - intro H. apply Hh, H3. split; [apply G2a, Hnd1, H | reflexivity].
  - intro H. apply Hout, H3. split; [apply Hfe2, H | reflexivity].
Qed.

End Visual.


Section Filtered.
Variable ps : text -> option (Z * Z).
Variable pn : Z -> option (Z * Z).
Variable tn : value -> value.

Lemma add_fmt_cols o k df x :
  In x (fcols (add_fmt ps pn o k df)) <-> In x (fcols df) \/ (truthy o = true /\ x = k).
Proof.
  unfold add_fmt. destruct (truthy o).
  - rewrite set_column_cols. intuition.
  - intuition discriminate.
Qed.

Lemma add_fmt_nodup o k df : NoDup (fcols df) -> NoDup (fcols (add_fmt ps pn o k df)).
Proof. unfold add_fmt. destruct (truthy o); [apply set_column_nodup | auto]. Qed.

Lemma df_filtrado_cols nd aloc fech sel df x :
  In x (fcols (df_filtrado ps pn tn (nd, aloc, fech) sel df)) <->
  In x (fcols df) \/ (truthy nd = true /\ x = col_nd_fmt) \/
  (truthy aloc = true /\ x = col_aloc_fmt) \/ (truthy fech = true /\ x = col_fech_fmt) \/
  x = u "Horas" \/ x = u "Valor".
Proof.
  unfold df_filtrado, numeric_column. cbv zeta.
  rewrite !set_column_cols. simpl fcols. rewrite !add_fmt_cols. intuition.
Qed.

Lemma df_filtrado_nodup nd aloc fech sel df :
  NoDup (fcols df) -> NoDup (fcols (df_filtrado ps pn tn (nd, aloc, fech) sel df)).
Proof.
  intro H. unfold df_filtrado, numeric_column. cbv zeta.
  apply set_column_nodup, set_column_nodup. simpl fcols.
  apply add_fmt_nodup, add_fmt_nodup, add_fmt_nodup, H.
Qed.

End Filtered.

(** X19: the final table of the page shows no hidden column ("Empresa",
    "Conta Destino", "Aprovador") and no auxiliary "_fmt" column; each of
    its columns is an input column or one of "Período ND", "Período
    Fechamento", "Horas", "Valor"; "Horas" and "Valor" are always shown;
    every other input column is kept; "Período ND" comes first when an ND
    column was detected, and "Período Fechamento" is shown when a closing or
    allocation column was detected. *)
Theorem app_visual_columns parse_str parse_num to_numeric sel df :
  let out := fcols (app_visual parse_str parse_num to_numeric sel df) in
  let '(nd, aloc, fech) := _detect_period_columns (fcols df) in
  (forall x, In x out ->
     (In x (fcols df) \/ In x [col_nd; col_fech; u "Horas"; u "Valor"]) /\
     ~ In x colunas_ocultas /\ ends_with (u "_fmt") x = false) /\
  In (u "Horas") out /\ In (u "Valor") out /\
  (forall x, In x (fcols df) -> ~ In x colunas_ocultas -> ends_with (u "_fmt") x = false ->
     In x out) /\
  (truthy nd = true -> exists rest, out = col_nd :: rest) /\
  (truthy fech = true \/ truthy aloc = true -> In col_fech out).
Proof.
  cbv zeta. unfold app_visual.
  destruct (_detect_period_columns (fcols df)) as [[nd aloc] fech].
  set (dff := df_filtrado parse_str parse_num to_numeric (nd, aloc, fech) sel df).
  destruct (df_visual_facts parse_str parse_num nd aloc fech dff)
    as (V1 & V2 & _ & V4 & V5).
  pose proof (df_filtrado_cols parse_str parse_num to_numeric nd aloc fech sel df) as F.
  fold dff in F.
  assert (Hnh : forall k, In k [col_nd; col_fech; u "Horas"; u "Valor"] ->
                  ~ In k colunas_ocultas /\ ends_with (u "_fmt") k = false).
  { intros k Hk. simpl in Hk.
    destruct Hk as [<-|[<-|[<-|[<-|[]]]]]; (split; [apply has_col_false|]; reflexivity). }
  split; [|split; [|split; [|split; [|split]]]].
  - intros x Hx. destruct (V1 x Hx) as [[[Hd Hh]|[-> | ->]] Hf].
    + split; [|split; assumption]. apply F in Hd.
      destruct Hd as [Hd|[[_ ->]|[[_ ->]|[[_ ->]|[-> | ->]]]]];
        first [left; exact Hd | (vm_compute in Hf; discriminate Hf)
              | right; right; right; left; reflexivity
              | right; right; right; right; left; reflexivity].
    + split; [right; left; reflexivity | apply Hnh; left; reflexivity].
    + split; [right; right; left; reflexivity | apply Hnh; right; left; reflexivity].
  - apply V2; [apply F; auto 7 | apply Hnh; simpl; auto 6 | reflexivity].
  - apply V2; [apply F; auto 7 | apply Hnh; simpl; auto 6 | reflexivity].
  - intros x Hx Hh Hf. apply V2; [apply F; auto | exact Hh | exact Hf].
  - intro Ht. apply V4, F. auto 7.
  - intros [Ht|Ht]; apply V5; [left|right]; apply F; auto 7.
Qed.

(** X20: when the input frame has no repeated column name, neither has
    the final table. *)
Theorem app_visual_nodup parse_str parse_num to_numeric sel df :
  NoDup (fcols df) -> NoDup (fcols (app_visual parse_str parse_num to_numeric sel df)).
Proof.
  intro H. unfold app_visual.
  destruct (_detect_period_columns (fcols df)) as [[nd aloc] fech].
  destruct (df_visual_facts parse_str parse_num nd aloc fech
              (df_filtrado parse_str parse_num to_numeric (nd, aloc, fech) sel df))
    as (_ & _ & V3 & _).
  apply V3, df_filtrado_nodup, H.
Qed.


Lemma teqb_false_neq a b : teqb a b = false -> a <> b.
Proof. intros H ->. rewrite teqb_refl in H. discriminate. Qed.

Lemma has_col_set_other c k g df :
  c <> k -> has_col c (fcols (set_column k g df)) = has_col c (fcols df).
Proof.
  intro H. apply eq_iff_eq_true. rewrite !has_col_In, set_column_cols. intuition.
Qed.

Lemma ends_with_fmt_neq c k :
  ends_with (u "_fmt") c = false -> ends_with (u "_fmt") k = true -> c <> k.
Proof. intros H1 H2 ->. congruence. Qed.

Ltac names_neq := apply teqb_false_neq; reflexivity.

Ltac upd_eval tac := repeat first [rewrite upd_same | rewrite upd_other by tac].

Section Rows.
Variable ps : text -> option (Z * Z).
Variable pn : Z -> option (Z * Z).
Variable tn : value -> value.

Lemma has_col_add_fmt_other c o k df :
  c <> k -> has_col c (fcols (add_fmt ps pn o k df)) = has_col c (fcols df).
Proof.
  intro H. apply eq_iff_eq_true. rewrite !has_col_In, add_fmt_cols. intuition.
Qed.

Lemma add_fmt_rows o k df r' :
  In r' (frows (add_fmt ps pn o k df)) ->
  exists r, In r (frows df) /\
            r' = if truthy o then upd r k (fmt_series ps pn (name_of o) r) else r.
Proof.
  unfold add_fmt. destruct (truthy o); [apply set_column_rows|]. intro H. exists r'. auto.
Qed.

Lemma fmt_series_upd src r k v :
  src <> k -> fmt_series ps pn src (upd r k v) = fmt_series ps pn src r.
Proof. intro H. unfold fmt_series. rewrite upd_other by exact H. reflexivity. Qed.

Lemma df_filtrado_rows nd aloc fech sel df r' :
  (truthy aloc = true -> ends_with (u "_fmt") (name_of aloc) = false) ->
  (truthy fech = true -> ends_with (u "_fmt") (name_of fech) = false) ->
  In r' (frows (df_filtrado ps pn tn (nd, aloc, fech) sel df)) ->
  exists r, In r (frows df) /\
    (truthy nd = true -> r' col_nd_fmt = fmt_series ps pn (name_of nd) r) /\
    (truthy aloc = true -> r' col_aloc_fmt = fmt_series ps pn (name_of aloc) r) /\
    (truthy fech = true -> r' col_fech_fmt = fmt_series ps pn (name_of fech) r) /\
    r' (u "Horas") = (if has_col (u "Horas") (fcols df) then tn (r (u "Horas")) else VNum 0) /\
    r' (u "Valor") = (if has_col (u "Valor") (fcols df) then tn (r (u "Valor")) else VNum 0) /\
    (forall c, ~ In c [col_nd_fmt; col_aloc_fmt; col_fech_fmt; u "Horas"; u "Valor"] ->
       r' c = r c).
Proof.
  intros Ha Hf H. unfold df_filtrado, numeric_column in H. cbv zeta in H.
  rewrite has_col_set_other in H by names_neq.
  cbn [fcols] in H. rewrite !has_col_add_fmt_other in H by names_neq.
  apply set_column_rows in H as (r4 & H4 & ->).
  apply set_column_rows in H4 as (r3 & H3 & ->).
  cbn [frows] in H3. rewrite aplica_filtros_as_filter in H3. apply filter_In in H3 as [H3 _].
  apply add_fmt_rows in H3 as (r2 & H2 & ->).
  apply add_fmt_rows in H2 as (r1 & H1 & ->).
  apply add_fmt_rows in H1 as (r & H0 & ->).
  exists r. split; [exact H0|].
  assert (Nfmt : forall o, (truthy o = true -> ends_with (u "_fmt") (name_of o) = false) ->
                 truthy o = true -> name_of o <> col_nd_fmt /\ name_of o <> col_aloc_fmt).
  { intros o Ho Ht. specialize (Ho Ht).
    split; apply (ends_with_fmt_neq _ _ Ho); reflexivity. }
  split; [|split; [|split; [|split; [|split]]]].
  - intro Ht. destruct (truthy nd), (truthy aloc), (truthy fech); try discriminate Ht;
      cbv beta iota; upd_eval names_neq; reflexivity.
  - intro Ht. destruct (Nfmt aloc Ha Ht) as [Na _].
    destruct (truthy nd), (truthy aloc), (truthy fech); try discriminate Ht;
      cbv beta iota; upd_eval names_neq; rewrite ?fmt_series_upd by assumption; reflexivity.
  - intro Ht. destruct (Nfmt fech Hf Ht) as [Na Nb].
    destruct (truthy nd), (truthy aloc), (truthy fech); try discriminate Ht;
      cbv beta iota; upd_eval names_neq; rewrite ?fmt_series_upd by assumption; reflexivity.
  - destruct (has_col (u "Horas") (fcols df)), (has_col (u "Valor") (fcols df)),
      (truthy nd), (truthy aloc), (truthy fech); cbv beta iota; upd_eval names_neq; reflexivity.
  - destruct (has_col (u "Horas") (fcols df)), (has_col (u "Valor") (fcols df)),
      (truthy nd), (truthy aloc), (truthy fech); cbv beta iota; upd_eval names_neq; reflexivity.
  - intros c Hc.
    assert (N : forall k, In k [col_nd_fmt; col_aloc_fmt; col_fech_fmt; u "Horas"; u "Valor"] ->
                c <> k) by (intros k Hk ->; exact (Hc Hk)).
    destruct (has_col (u "Horas") (fcols df)), (has_col (u "Valor") (fcols df)),
      (truthy nd), (truthy aloc), (truthy fech); cbv beta iota;
      upd_eval ltac:(apply N; simpl; tauto); reflexivity.
Qed.

End Rows.


Lemma frows_drop ds df : frows (drop_columns ds df) = frows df.
Proof. reflexivity. Qed.

Lemma has_col_drop_present k ds df :
  ~ In k ds ->
  has_col k (fcols (drop_columns (filter (fun c => has_col c (fcols df)) ds) df)) =
  has_col k (fcols df).
Proof.
  intro H. apply eq_iff_eq_true. rewrite !has_col_In, drop_present_cols. intuition.
Qed.

Section VisualRows.
Variable ps : text -> option (Z * Z).
Variable pn : Z -> option (Z * Z).

Lemma df_visual_rows nd aloc fech dff r' :
  In r' (frows (df_visual ps pn (nd, aloc, fech) dff)) ->
  exists r1, In r1 (frows dff) /\
    (In col_nd_fmt (fcols dff) -> r' col_nd = r1 col_nd_fmt) /\
    (In col_fech_fmt (fcols dff) -> r' col_fech = r1 col_fech_fmt) /\
    (~ In col_fech_fmt (fcols dff) -> In col_aloc_fmt (fcols dff) ->
       r' col_fech = r1 col_aloc_fmt) /\
    (forall c, c <> col_nd -> c <> col_fech -> r' c = r1 c).
Proof.
  intro H. unfold df_visual in H. cbv zeta in H.
  destruct (preferir _) as [pre rest] in H. cbn [frows] in H. rewrite ?frows_drop in H.
  repeat match type of H with
         | context [if ?b then _ else _] => destruct b eqn:?
         end;
  repeat match type of H with
         | In _ (frows (set_column _ _ _)) =>
             let q := fresh "q" in let Eq := fresh "Eq" in
             apply set_column_rows in H as (q & H & Eq); subst
         end;
  rewrite ?frows_drop in H; eexists; (split; [exact H|]);
  repeat match goal with
         | E : has_col _ _ = _ |- _ =>
             rewrite ?has_col_set_other in E by names_neq;
             rewrite has_col_drop_present in E by (apply has_col_false; reflexivity);
             revert E
         end; intros;
  repeat match goal with
         | E : has_col _ _ = true |- _ => apply has_col_In in E
         | E : has_col _ _ = false |- _ => apply has_col_false in E
         end;
  (split; [|split; [|split]]); intros;
  try contradiction;
  upd_eval ltac:(first [names_neq | assumption]); reflexivity.
Qed.

End VisualRows.


Lemma detect_in cols :
  let '(nd, aloc, fech) := _detect_period_columns cols in
  (forall c, nd = Some c -> In c cols) /\ (forall c, aloc = Some c -> In c cols) /\
  (forall c, fech = Some c -> In c cols).
Proof.
  rewrite detect_split.
  split; [|split]; intros c Hc; exact (proj1 (role_choice_in _ _ _ _ _ Hc)).
Qed.

Lemma truthy_name_in (o : option text) cols :
  (forall c, o = Some c -> In c cols) -> truthy o = true -> In (name_of o) cols.
Proof. destruct o as [c|]; simpl; [intros H _; apply H; reflexivity | discriminate]. Qed.

Lemma no_fmt_cols cols k :
  forallb (fun c => negb (ends_with (u "_fmt") c)) cols = true ->
  In k cols -> ends_with (u "_fmt") k = false.
Proof.
  intros H Hk. rewrite forallb_forall in H. specialize (H k Hk).
  destruct (ends_with (u "_fmt") k); [discriminate | reflexivity].
Qed.

(** X21: when no input column name ends in "_fmt", each row of the final
    table comes from an input row [r]: its "Período ND" cell is the
    converter's label of the detected ND cell of [r]; its "Período
    Fechamento" cell is the label of the closing cell, or of the allocation
    cell when no closing column was detected; "Horas" and "Valor" are
    [pd.to_numeric] of the input cells, or 0 when the column is missing; any
    other shown column keeps the cell of [r]. *)
Theorem app_visual_rows parse_str parse_num to_numeric sel df :
  forallb (fun c => negb (ends_with (u "_fmt") c)) (fcols df) = true ->
  let '(nd, aloc, fech) := _detect_period_columns (fcols df) in
  forall r', In r' (frows (app_visual parse_str parse_num to_numeric sel df)) ->
  exists r, In r (frows df) /\
    (truthy nd = true -> r' col_nd = fmt_series parse_str parse_num (name_of nd) r) /\
    (truthy fech = true -> r' col_fech = fmt_series parse_str parse_num (name_of fech) r) /\
    (truthy fech = false -> truthy aloc = true ->
       r' col_fech = fmt_series parse_str parse_num (name_of aloc) r) /\
    r' (u "Horas") = (if has_col (u "Horas") (fcols df) then to_numeric (r (u "Horas"))
                      else VNum 0) /\
    r' (u "Valor") = (if has_col (u "Valor") (fcols df) then to_numeric (r (u "Valor"))
                      else VNum 0) /\
    (forall c, In c (fcols (app_visual parse_str parse_num to_numeric sel df)) ->
       ~ In c [col_nd; col_fech; u "Horas"; u "Valor"] -> r' c = r c).
Proof.
  intro Hnf. pose proof (detect_in (fcols df)) as Hin. unfold app_visual.
  destruct (_detect_period_columns (fcols df)) as [[nd aloc] fech].
  destruct Hin as (_ & Ia & If).
  set (dff := df_filtrado parse_str parse_num to_numeric (nd, aloc, fech) sel df).
  intros r' Hr.
  destruct (df_visual_facts parse_str parse_num nd aloc fech dff) as (C1 & _).
  apply df_visual_rows in Hr as (r1 & H1 & V1 & V2 & V3 & V4).
  pose proof (df_filtrado_cols parse_str parse_num to_numeric nd aloc fech sel df) as Fc.
  fold dff in Fc.
  unfold dff in H1. apply df_filtrado_rows in H1 as (r & H0 & F1 & F2 & F3 & F4 & F5 & F6);
    [| intro Ht; exact (no_fmt_cols _ _ Hnf (truthy_name_in _ _ Ia Ht))
     | intro Ht; exact (no_fmt_cols _ _ Hnf (truthy_name_in _ _ If Ht))].
  assert (Nin : forall k, ends_with (u "_fmt") k = true -> ~ In k (fcols df)).
  { intros k Hk Hi. rewrite (no_fmt_cols _ _ Hnf Hi) in Hk. discriminate. }
  exists r. split; [exact H0|].
  split; [|split; [|split; [|split; [|split]]]].
  - intro Ht. rewrite V1 by (apply Fc; auto). exact (F1 Ht).
  - intro Ht. rewrite V2 by (apply Fc; auto 6). exact (F3 Ht).
  - intros Hf Ha. rewrite V3.
    + exact (F2 Ha).
    + intro Hi. apply Fc in Hi.
      destruct Hi as [Hi|[[_ E]|[[_ E]|[[Ht _]|[E|E]]]]].
      * exact (Nin col_fech_fmt eq_refl Hi).
      * revert E; names_neq.
      * revert E; names_neq.
      * rewrite Ht in Hf; discriminate.
      * revert E; names_neq.
      * revert E; names_neq.
    + apply Fc. auto 6.
  - rewrite V4 by names_neq. exact F4.
  - rewrite V4 by names_neq. exact F5.
  - intros c Hc Hn. simpl in Hn.
    destruct (C1 c Hc) as [_ Hf].
    rewrite V4 by (intro E; apply Hn; auto).
    apply F6. simpl. intros [E|[E|[E|[E|[E|[]]]]]]; subst c;
      first [discriminate Hf | vm_compute in Hf; discriminate Hf | apply Hn; auto 6].
Qed.


(** ** The option builder only sees the set of cells *)

Lemma sorted_unique {A} (R : A -> A -> Prop)
  (Htr : forall a b c, R a b -> R b c -> R a c) (Hirr : forall a, ~ R a a) :
  forall l1 l2, Sorted R l1 -> Sorted R l2 -> (forall x, In x l1 <-> In x l2) -> l1 = l2.
Proof.
  intros l1 l2 S1 S2. apply Sorted_StronglySorted in S1; [|exact Htr].
  apply Sorted_StronglySorted in S2; [|exact Htr]. revert l2 S2.
  induction S1 as [|a l1 S1 IH Ha]; intros [|b l2] S2 E.
  - reflexivity.
  - exfalso. apply (proj2 (E b)). left. reflexivity.
  - exfalso. apply (proj1 (E a)). left. reflexivity.
  - inversion S2 as [|? ? S2' Hb]; subst.
    rewrite Forall_forall in Ha, Hb.
    assert (Eab : a = b).
    { destruct (proj1 (E a) (or_introl eq_refl)) as [->|Ha2]; [reflexivity|].
      destruct (proj2 (E b) (or_introl eq_refl)) as [<-|Hb1]; [reflexivity|].
      exfalso. exact (Hirr a (Htr _ _ _ (Ha b Hb1) (Hb a Ha2))). }
    subst b. f_equal. apply IH; [exact S2'|]. intro x. split; intro Hx.
    + destruct (proj1 (E x) (or_intror Hx)) as [Ex|H]; [|exact H].
      subst x. exfalso. exact (Hirr a (Ha a Hx)).
    + destruct (proj2 (E x) (or_intror Hx)) as [Ex|H]; [|exact H].
      subst x. exfalso. exact (Hirr a (Hb a Hx)).
Qed.

Lemma sorted_nodup_strict {A} (le : A -> A -> bool) l :
  Sorted (fun a b => le a b = true) l -> NoDup l ->
  Sorted (fun a b => le a b = true /\ a <> b) l.
Proof.
  induction l as [|a l IH]; intros HS HN; [constructor|].
  apply Sorted_inv in HS as [HS Hd]. inversion HN as [|? ? Hnin HN']; subst.
  constructor; [exact (IH HS HN')|].
  destruct l as [|b l]; constructor. inversion Hd; subst. split; [assumption|].
  intros ->. apply Hnin. left. reflexivity.
Qed.

Lemma text_leb_antisym a b : text_leb a b = true -> text_leb b a = true -> a = b.
Proof.
  revert b. induction a as [|x a IH]; intros [|y b]; simpl; try discriminate; auto.
  rewrite !orb_true_iff, !andb_true_iff, !Z.ltb_lt, !Z.eqb_eq.
  intros [H1|[E1 H1]] [H2|[E2 H2]]; try lia. subst. f_equal. auto.
Qed.

Lemma text_leb_trans a b c : text_leb a b = true -> text_leb b c = true -> text_leb a c = true.
Proof.
  revert b c. induction a as [|x a IH]; intros [|y b] [|z c]; simpl; try discriminate; auto.
  rewrite !orb_true_iff, !andb_true_iff, !Z.ltb_lt, !Z.eqb_eq.
  intros [H1|[-> H1]] [H2|[-> H2]]; [left; lia | left; lia | left; lia | right; split; eauto].
Qed.

Lemma set_add_fold s O l :
  In s (fold_right (set_add text_eq_dec) O l) <-> In s O \/ In s l.
Proof.
  induction l as [|x l IH]; simpl; [tauto|]. rewrite set_add_iff, IH. intuition (subst; auto).
Qed.

Lemma options_step_shape ps pn T O v :
  options_step ps pn (T, O) v =
  option_map (fun p => (T ++ fst p, fold_right (set_add text_eq_dec) O (snd p)))
             (options_step ps pn ([], []) v).
Proof.
  unfold options_step. cbv zeta.
  repeat match goal with
         | |- context [match ?x with _ => _ end] =>
             lazymatch x with
             | context [T] => fail
             | context [O] => fail
             | _ => destruct x
             end
         end; simpl; rewrite ?app_nil_r; reflexivity.
Qed.

Lemma options_inv_nil ps pn : options_inv ps pn [] ([], []).
Proof. simpl. repeat constructor. Qed.

Lemma options_loop_tuples ps pn
  (Hs : forall s y m, ps s = Some (y, m) -> 1677 <= y <= 2262 /\ 1 <= m <= 12)
  (Hn : forall n y m, pn n = Some (y, m) -> 1677 <= y <= 2262 /\ 1 <= m <= 12) vs :
  Forall wf_value vs -> forall T O,
  exists T' O', options_loop ps pn vs (T, O) = Some (T', O') /\
    (forall t, In t T' <-> In t T \/
       exists v p, In v vs /\ options_step ps pn ([], []) v = Some p /\ In t (fst p)).
Proof.
  induction 1 as [|v vs Hv Hvs IH]; intros T O.
  - exists T, O. split; [reflexivity|]. intro t.
    split; [tauto|]. intros [H|(v & p & [] & _)]. exact H.
  - destruct (options_step_inv ps pn Hs Hn [] ([], []) v Hv (options_inv_nil ps pn))
      as ([T1 O1] & Hp & _).
    cbn [options_loop]. rewrite options_step_shape, Hp. cbn [option_map fst snd].
    destruct (IH (T ++ T1) (fold_right (set_add text_eq_dec) O O1)) as (T' & O' & Hl & Hm).
    exists T', O'. split; [exact Hl|]. intro t. rewrite Hm, in_app_iff. split.
    + intros [[H|H]|(v' & p & Hv' & Hp' & Ht)]; [auto| |].
      * right. exists v, (T1, O1). simpl. auto.
      * right. exists v', p. simpl. auto.
    + intros [H|(v' & p & [<-|Hv'] & Hp' & Ht)]; [auto| |].
      * rewrite Hp in Hp'. injection Hp' as <-. simpl in Ht. auto.
      * right. exists v', p. auto.
Qed.

Lemma ordered_labels_eq T1 T2 :
  Forall canon T1 -> Forall canon T2 -> (forall t, In t T1 <-> In t T2) ->
  map third (isort key_leb (nodup triple_eq_dec T1)) =
  map third (isort key_leb (nodup triple_eq_dec T2)).
Proof.
  intros C1 C2 E.
  assert (Facts : forall T, Forall canon T ->
            map third (isort key_leb (nodup triple_eq_dec T)) =
              map label_of (map key (isort key_leb (nodup triple_eq_dec T))) /\
            Sorted key_lt (map key (isort key_leb (nodup triple_eq_dec T))) /\
            (forall t, In t (isort key_leb (nodup triple_eq_dec T)) <-> In t T)).
  { intros T HC. set (S := isort key_leb (nodup triple_eq_dec T)).
    assert (HS : forall t, In t S <-> In t T).
    { intro t. unfold S. split; intro H.
      - apply (Permutation_in _ (isort_perm key_leb _)) in H. apply nodup_In in H. exact H.
      - apply (Permutation_in _ (Permutation_sym (isort_perm key_leb _))).
        apply nodup_In. exact H. }
    assert (HcS : Forall canon S).
    { apply Forall_forall. intros t Ht. apply HS in Ht.
      exact (proj1 (Forall_forall _ _) HC t Ht). }
    split; [|split; [|exact HS]].
    - rewrite map_map. apply map_ext_in. intros t Ht.
      apply canon_third. exact (proj1 (Forall_forall _ _) HcS t Ht).
    - apply sorted_keys_strict; [apply isort_sorted, key_leb_total|].
      apply NoDup_map_NoDup_ForallPairs.
      + intros a b Ha Hb. apply canon_key_inj;
          [exact (proj1 (Forall_forall _ _) HcS a Ha) | exact (proj1 (Forall_forall _ _) HcS b Hb)].
      + apply (Permutation_NoDup (Permutation_sym (isort_perm key_leb _))). apply NoDup_nodup. }
  destruct (Facts T1 C1) as (E1 & S1 & M1). destruct (Facts T2 C2) as (E2 & S2 & M2).
  rewrite E1, E2. f_equal. apply (sorted_unique key_lt).
  - unfold key_lt. intros a b c. lia.
  - unfold key_lt. intros a. lia.
  - exact S1.
  - exact S2.
  - intro k. rewrite !in_map_iff. split; intros (t & Hk & Ht); exists t; split; auto.
    + apply M2, E, M1, Ht.
    + apply M1, E, M2, Ht.
Qed.

Lemma sorted_others_eq O1 O2 :
  NoDup O1 -> NoDup O2 -> (forall x, In x O1 <-> In x O2) ->
  isort text_leb O1 = isort text_leb O2.
Proof.
  intros N1 N2 E.
  apply (sorted_unique (fun a b => text_leb a b = true /\ a <> b)).
  - intros a b c [H1 N] [H2 _]. split; [exact (text_leb_trans _ _ _ H1 H2)|].
    intros ->. apply N. exact (text_leb_antisym _ _ H1 H2).
  - intros a [_ N]. exact (N eq_refl).
  - apply sorted_nodup_strict; [apply isort_sorted, text_leb_total|].
    exact (Permutation_NoDup (Permutation_sym (isort_perm text_leb _)) N1).
  - apply sorted_nodup_strict; [apply isort_sorted, text_leb_total|].
    exact (Permutation_NoDup (Permutation_sym (isort_perm text_leb _)) N2).
  - intro x. split; intro H.
    + apply (Permutation_in _ (Permutation_sym (isort_perm text_leb _))), E.
      exact (Permutation_in _ (isort_perm text_leb _) H).
    + apply (Permutation_in _ (Permutation_sym (isort_perm text_leb _))), E.
      exact (Permutation_in _ (isort_perm text_leb _) H).
Qed.

Lemma options_final ps pn
  (Hs : forall s y m, ps s = Some (y, m) -> 1677 <= y <= 2262 /\ 1 <= m <= 12)
  (Hn : forall n y m, pn n = Some (y, m) -> 1677 <= y <= 2262 /\ 1 <= m <= 12) vs :
  Forall wf_value vs ->
  exists T O, options_loop ps pn vs ([], []) = Some (T, O) /\ Forall canon T /\ NoDup O /\
    (forall t, In t T <-> exists v p, In v vs /\ options_step ps pn ([], []) v = Some p /\
                                    In t (fst p)) /\
    (forall x, In x O <-> exists v, In v vs
        /\ _format_period_from_maybe_date_or_string ps pn v = None
        /\ py_notna v = true
        /\ year_month_ok (_extract_year_month_from_string (py_str v)) = None
        /\ py_str v = x).
Proof.
  intro Hwf.
  destruct (options_loop_inv ps pn Hs Hn vs [] ([], []) Hwf (options_inv_nil ps pn))
    as ([T O] & Hl & Hinv).
  destruct (options_loop_tuples ps pn Hs Hn vs Hwf [] []) as (T' & O' & Hl' & HT).
  pose proof (eq_trans (eq_sym Hl) Hl') as Eq. injection Eq as <- <-.
  destruct Hinv as (Hc & Hnd & Ho & Hall).
  exists T, O. split; [exact Hl|]. split; [exact Hc|]. split; [exact Hnd|]. split.
  - intro t. rewrite HT. simpl. tauto.
  - intro x. split.
    + intro Hx. destruct (proj1 (Forall_forall _ _) Ho x Hx)
        as (Hnone & v & Hv & Hf & Hp & <-).
      exists v. auto.
    + intros (v & Hv & Hf & Hp & He & <-).
      exact (proj2 (proj1 (Forall_forall _ _) Hall v Hv) Hf Hp He).
Qed.

(** X14: the option list of a period filter depends only on which cell
    values occur in the column: two columns with the same values, in any
    order and with any repetitions, give the same options. *)
Theorem ordered_options_set_invariant parse_str parse_num
  (Hs : forall s y m, parse_str s = Some (y, m) -> 1677 <= y <= 2262 /\ 1 <= m <= 12)
  (Hn : forall n y m, parse_num n = Some (y, m) -> 1677 <= y <= 2262 /\ 1 <= m <= 12)
  vs1 vs2 :
  Forall wf_value vs1 -> Forall wf_value vs2 -> (forall v, In v vs1 <-> In v vs2) ->
  _period_options_ordered_from_series parse_str parse_num vs1 =
  _period_options_ordered_from_series parse_str parse_num vs2.
Proof.
  intros W1 W2 E.
  destruct (options_final parse_str parse_num Hs Hn vs1 W1) as (T1 & O1 & L1 & C1 & N1 & MT1 & MO1).
  destruct (options_final parse_str parse_num Hs Hn vs2 W2) as (T2 & O2 & L2 & C2 & N2 & MT2 & MO2).
  unfold _period_options_ordered_from_series. rewrite L1, L2. cbv beta iota zeta.
  f_equal. f_equal.
  - apply ordered_labels_eq; [exact C1 | exact C2|].
    intro t. rewrite MT1, MT2.
    split; intros (v & p & Hv & Hp & Ht); exists v, p; (split; [apply E; exact Hv | auto]).
  - apply sorted_others_eq; [exact N1 | exact N2|].
    intro x. rewrite MO1, MO2.
    split; intros (v & Hv & R); exists v; (split; [apply E; exact Hv | exact R]).
Qed.


(** ** Witnesses of the further properties *)

Lemma normalize_case_insensitive_witness :
  latin1 (u "PER" ++ [0xCD] ++ u "ODO ND") = true /\
  _normalize (py_lower (u "PER" ++ [0xCD] ++ u "ODO ND")) = _normalize (u "PER" ++ [0xCD] ++ u "ODO ND").
Proof.
  split; [vm_compute; reflexivity|].
  apply normalize_case_insensitive. vm_compute. reflexivity.
Defined.

Lemma normalize_accent_insensitive_witness :
  (0 <= 0xFF <= 255 /\ assoc_Z 0xFF nfkd_table = Some [0x79; 0x308] /\ is_mn 0x308 = true /\
   latin1 (u "Jos") = true /\ latin1 (u " Ribeiro") = true) /\
  _normalize (u "Jos" ++ 0xFF :: u " Ribeiro") = _normalize (u "Jos" ++ 0x79 :: u " Ribeiro").
Proof.
  split; [split; [lia|]; repeat split; vm_compute; reflexivity|].
  apply (normalize_accent_insensitive 0xFF 0x79 0x308); [lia | vm_compute; reflexivity ..].
Defined.

Lemma normalize_ignores_symbols_witness :
  (0 <= 0x5F <= 255 /\ is_az09 (py_lower_cp 0x5F) = false /\ assoc_Z 0x5F nfkd_table = None /\
   latin1 (u "Periodo") = true /\ latin1 (u "ND") = true) /\
  _normalize (u "Periodo" ++ 0x5F :: u "ND") = _normalize (u "Periodo" ++ u "ND").
Proof.
  split; [split; [lia|]; split; [vm_compute; reflexivity|]; split; [vm_compute; reflexivity|];
          split; vm_compute; reflexivity|].
  apply normalize_ignores_symbols; [lia | vm_compute; reflexivity ..].
Defined.

Lemma extract_case_space_invariant_witness :
  (latin1 (u "Mar/25") = true /\ Forall (fun c => py_isspace c = true) [0x20; 0xA0] /\
   Forall (fun c => py_isspace c = true) [0x09]) /\
  _extract_year_month_from_string ([0x20; 0xA0] ++ py_lower (u "Mar/25") ++ [0x09]) =
  _extract_year_month_from_string (u "Mar/25").
Proof.
  split; [split; [vm_compute; reflexivity|]; split; repeat constructor|].
  apply extract_case_space_invariant; [vm_compute; reflexivity | repeat constructor ..].
Defined.

Lemma extract_no_digit_no_year_witness :
  Forall (fun c => 0 <= c <= 255 /\ is_digit c = false /\
                   ~ In c [0xB2; 0xB3; 0xB9; 0xBC; 0xBD; 0xBE]) (u "Sem data") /\
  fst (_extract_year_month_from_string (u "Sem data")) = None.
Proof.
  assert (H : Forall (fun c => 0 <= c <= 255 /\ is_digit c = false /\
                   ~ In c [0xB2; 0xB3; 0xB9; 0xBC; 0xBD; 0xBE]) (u "Sem data")).
  { assert (E : u "Sem data" = [83; 101; 109; 32; 100; 97; 116; 97]) by reflexivity.
    rewrite E. repeat constructor; cbn; lia. }
  split; [exact H|]. apply extract_no_digit_no_year. exact H.
Defined.

Lemma extract_month_in_range_witness :
  snd (_extract_year_month_from_string (u "05/2025")) = Some 5 /\ 1 <= 5 <= 12.
Proof.
  split; [vm_compute; reflexivity|].
  apply (extract_month_in_range (u "05/2025")). vm_compute. reflexivity.
Defined.

Lemma extract_iso_year_month_witness :
  (2000 <= 2025 <= 2099 /\ 1 <= 9 <= 12) /\
  _extract_year_month_from_string (py_str_Z 2025 ++ u "-" ++ two_digits 9) = (Some 2025, Some 9).
Proof.
  split; [lia|]. apply extract_iso_year_month; lia.
Defined.

Lemma extract_month_slash_year_witness :
  (2000 <= 2025 <= 2099 /\ 1 <= 9 <= 12) /\
  _extract_year_month_from_string (two_digits 9 ++ u "/" ++ py_str_Z 2025) = (Some 2025, Some 9).
Proof.
  split; [lia|]. apply extract_month_slash_year; lia.
Defined.

Lemma extract_month_name_year_witness :
  (1 <= 3 <= 12 /\ 0 <= 25 <= 99) /\
  (_extract_year_month_from_string
     (nth (Z.to_nat (3 - 1)) nomes_meses [] ++ u "/" ++ py_str_Z (2000 + 25)) =
     (Some (2000 + 25), Some 3) /\
   _extract_year_month_from_string
     (nth (Z.to_nat (3 - 1)) nomes_meses [] ++ u "/" ++ two_digits 25) =
     (Some (2000 + 25), Some 3)).
Proof.
  split; [lia|]. apply extract_month_name_year; lia.
Defined.

Lemma extract_day_first_date_witness :
  (2000 <= 2025 <= 2099 /\ 1 <= 15 <= 31 /\ 1 <= 9 <= 12) /\
  _extract_year_month_from_string
    (two_digits 15 ++ u "/" ++ two_digits 9 ++ u "/" ++ py_str_Z 2025) =
    (Some 2025, Some (if 15 <=? 12 then 15 else 9)).
Proof.
  split; [lia|]. apply extract_day_first_date; lia.
Defined.

Lemma aplica_filtros_order_irrelevant_witness :
  Permutation [(u "Cliente", [u "A"]); (u "Projeto", [u "P"])]
              [(u "Projeto", [u "P"]); (u "Cliente", [u "A"])] /\
  aplica_filtros [(u "Cliente", [u "A"]); (u "Projeto", [u "P"])] [fun _ => VStr (u "A")] =
  aplica_filtros [(u "Projeto", [u "P"]); (u "Cliente", [u "A"])] [fun _ => VStr (u "A")].
Proof.
  split; [apply perm_swap|].
  apply aplica_filtros_order_irrelevant. apply perm_swap.
Defined.

Lemma brl_swap_exchanges_witness :
  ~ In 118 (u "1,234.50") /\
  brl_swap (u "1,234.50") =
  map (fun c => if Z.eqb c 44 then 46 else if Z.eqb c 46 then 44 else c) (u "1,234.50").
Proof.
  assert (H : ~ In 118 (u "1,234.50")) by (vm_compute; lia).
  split; [exact H|]. apply brl_swap_exchanges. exact H.
Defined.

Lemma format_label_fixed_point_witness :
  (forall s y m, iso_parse s = Some (y, m) -> 1677 <= y <= 2262 /\ 1 <= m <= 12) /\
  (forall n y m, no_num n = Some (y, m) -> 1677 <= y <= 2262 /\ 1 <= m <= 12) /\
  wf_value (VStr (u "09/2025")) /\
  _format_period_from_maybe_date_or_string iso_parse no_num (VStr (u "09/2025")) = Some (u "Set/25") /\
  iso_parse (u "Set/25") = None /\
  _format_period_from_maybe_date_or_string iso_parse no_num (VStr (u "Set/25")) = Some (u "Set/25").
Proof.
  split; [exact iso_parse_range|]. split; [exact no_num_range|].
  split; [exact I|]. split; [vm_compute; reflexivity|]. split; [vm_compute; reflexivity|].
  apply (format_label_fixed_point iso_parse no_num iso_parse_range no_num_range (VStr (u "09/2025")));
    [exact I | vm_compute; reflexivity ..].
Defined.

Lemma app_visual_nodup_witness :
  NoDup (fcols (mkframe [col_nd; u "Horas"; u "Cliente"] [fun _ => VNone])) /\
  NoDup (fcols (app_visual iso_parse no_num (fun v => v) (fun _ => [])
                  (mkframe [col_nd; u "Horas"; u "Cliente"] [fun _ => VNone]))).
Proof.
  assert (H : NoDup (fcols (mkframe [col_nd; u "Horas"; u "Cliente"] [fun _ => VNone]))).
  { cbn [fcols]. repeat constructor; vm_compute; intuition discriminate. }
  split; [exact H|]. apply app_visual_nodup. exact H.
Defined.

Lemma app_visual_rows_witness :
  forallb (fun c => negb (ends_with (u "_fmt") c))
    (fcols (mkframe [col_nd; u "Horas"; u "Cliente"] [fun _ => VNone])) = true /\
  let df := mkframe [col_nd; u "Horas"; u "Cliente"] [fun _ => VNone] in
  let '(nd, aloc, fech) := _detect_period_columns (fcols df) in
  forall r', In r' (frows (app_visual iso_parse no_num (fun v => v) (fun _ => []) df)) ->
  exists r, In r (frows df) /\
    (truthy nd = true -> r' col_nd = fmt_series iso_parse no_num (name_of nd) r) /\
    (truthy fech = true -> r' col_fech = fmt_series iso_parse no_num (name_of fech) r) /\
    (truthy fech = false -> truthy aloc = true ->
       r' col_fech = fmt_series iso_parse no_num (name_of aloc) r) /\
    r' (u "Horas") = (if has_col (u "Horas") (fcols df) then r (u "Horas") else VNum 0) /\
    r' (u "Valor") = (if has_col (u "Valor") (fcols df) then r (u "Valor") else VNum 0) /\
    (forall c, In c (fcols (app_visual iso_parse no_num (fun v => v) (fun _ => []) df)) ->
       ~ In c [col_nd; col_fech; u "Horas"; u "Valor"] -> r' c = r c).
Proof.
  split; [vm_compute; reflexivity|].
  exact (app_visual_rows iso_parse no_num (fun v => v) (fun _ => [])
           (mkframe [col_nd; u "Horas"; u "Cliente"] [fun _ => VNone])
           ltac:(vm_compute; reflexivity)).
Defined.

Lemma ordered_options_set_invariant_witness :
  (forall s y m, iso_parse s = Some (y, m) -> 1677 <= y <= 2262 /\ 1 <= m <= 12) /\
  (forall n y m, no_num n = Some (y, m) -> 1677 <= y <= 2262 /\ 1 <= m <= 12) /\
  Forall wf_value [VStr (u "2025-09"); VStr (u "abc"); VStr (u "2025-09")] /\
  Forall wf_value [VStr (u "abc"); VStr (u "2025-09")] /\
  (forall v, In v [VStr (u "2025-09"); VStr (u "abc"); VStr (u "2025-09")] <->
             In v [VStr (u "abc"); VStr (u "2025-09")]) /\
  _period_options_ordered_from_series iso_parse no_num
    [VStr (u "2025-09"); VStr (u "abc"); VStr (u "2025-09")] =
  _period_options_ordered_from_series iso_parse no_num [VStr (u "abc"); VStr (u "2025-09")].
Proof.
  assert (Hi : forall v, In v [VStr (u "2025-09"); VStr (u "abc"); VStr (u "2025-09")] <->
             In v [VStr (u "abc"); VStr (u "2025-09")]).
  { intro v. cbn. tauto. }
  split; [exact iso_parse_range|]. split; [exact no_num_range|].
  split; [repeat constructor|]. split; [repeat constructor|]. split; [exact Hi|].
  apply (ordered_options_set_invariant iso_parse no_num iso_parse_range no_num_range);
    [repeat constructor | repeat constructor | exact Hi].
Defined.
